(** * Petstore tool server: the request translator and the tool registry

    A shallow embedding of [main.py].  Python objects are values of one
    universal type, coroutines are finite interaction trees whose only
    effects are one awaited HTTP exchange, lines printed on standard
    output and raised exceptions, and the calling convention of
    [fetch_from_petstore] (positional [method] and [path], the rest by
    keyword) is modelled explicitly because one call site depends on it.

    What the program takes from its libraries is modelled beside it: the
    exception classes of [httpx] and the way [raise_for_status] refuses
    every status outside 2xx, and the grammar [json.loads] accepts.  The
    network and the remote service are a function from the request sent
    to what comes back, a response or an exception. *)

From Stdlib Require Import ZArith QArith String Ascii List Bool Lia.
From Stdlib Require Import DecimalString Numbers.DecimalZ.
Import ListNotations.
Open Scope string_scope.
Open Scope Z_scope.

Set Implicit Arguments.
Set Warnings "-register-all".

(** ** Python values *)

Module Py.

(** The objects the program handles: [None], booleans, integers, floats
    (kept as the literal that denotes them), [str], [bytes], lists and
    dicts with [str] keys in insertion order. *)
Inductive value : Type :=
| VNone
| VBool (b : bool)
| VInt (z : Z)
| VFloat (literal : string)
| VStr (s : string)
| VBytes (s : string)
| VList (l : list value)
| VDict (d : list (string * value)).

Definition dict := list (string * value).

Definition is_digit (c : ascii) : bool :=
  let n := nat_of_ascii c in (48 <=? n)%nat && (n <=? 57)%nat.

(** Whether a float literal denotes zero: no non-zero digit before the
    exponent.  ["NaN"] and ["Infinity"] are not zero. *)
Fixpoint mantissa_zero (s : string) : bool :=
  match s with
  | EmptyString => true
  | String c s' =>
      if (c =? "e")%char || (c =? "E")%char then true
      else if (c =? "N")%char || (c =? "I")%char then false
      else if is_digit c && negb (c =? "0")%char then false
      else mantissa_zero s'
  end.

(** [bool(v)] *)
Definition truthy (v : value) : bool :=
  match v with
  | VNone => false
  | VBool b => b
  | VInt z => negb (z =? 0)
  | VFloat l => negb (mantissa_zero l)
  | VStr s => negb (s =? "")%string
  | VBytes s => negb (s =? "")%string
  | VList l => match l with [] => false | _ => true end
  | VDict d => match d with [] => false | _ => true end
  end.

(** [v is None] *)
Definition is_None (v : value) : bool :=
  match v with VNone => true | _ => false end.

(** An [Optional[str]] and an [Optional[bytes]] argument as objects. *)
Definition of_opt_str (o : option string) : value :=
  match o with Some s => VStr s | None => VNone end.

Definition of_opt_bytes (o : option string) : value :=
  match o with Some s => VBytes s | None => VNone end.

(** [d[k]] as a lookup, and [k in d]. *)
Fixpoint get (k : string) (d : dict) : option value :=
  match d with
  | [] => None
  | (k', v) :: d' => if (k =? k')%string then Some v else get k d'
  end.

Definition keys (d : dict) : list string := map fst d.

(** [d[k] = v]: an existing key keeps its place. *)
Fixpoint set (k : string) (v : value) (d : dict) : dict :=
  match d with
  | [] => [(k, v)]
  | (k', v') :: d' =>
      if (k =? k')%string then (k, v) :: d' else (k', v') :: set k v d'
  end.

(** [f"{n}"] for an [int]. *)
Definition str_of_int (z : Z) : string :=
  NilZero.string_of_int (Z.to_int z).

(** [sep.join(l)] *)
Definition join (sep : string) (l : list string) : string :=
  String.concat sep l.

End Py.
Import Py.

(** ** Exceptions *)

Module Exn.

(** The exception classes that can reach the program: the hierarchy of
    [httpx], and the built-in classes its dependencies raise. *)
Inductive class : Type :=
| Exception
| TypeError
| ValueError
| RuntimeError
| JSONDecodeError
| UnicodeError
| UnicodeDecodeError
| HTTPError
| RequestError
| TransportError
| TimeoutException
| ConnectTimeout
| ReadTimeout
| WriteTimeout
| PoolTimeout
| NetworkError
| ConnectError
| ReadError
| WriteError
| CloseError
| ProtocolError
| LocalProtocolError
| RemoteProtocolError
| ProxyError
| UnsupportedProtocol
| DecodingError
| TooManyRedirects
| HTTPStatusError
| InvalidURL
| CookieConflict
| StreamError.

(** The direct base class. *)
Definition base (c : class) : option class :=
  match c with
  | Exception => None
  | TypeError | ValueError | RuntimeError => Some Exception
  | JSONDecodeError | UnicodeError => Some ValueError
  | UnicodeDecodeError => Some UnicodeError
  | HTTPError | InvalidURL | CookieConflict => Some Exception
  | StreamError => Some RuntimeError
  | RequestError | HTTPStatusError => Some HTTPError
  | TransportError | DecodingError | TooManyRedirects => Some RequestError
  | TimeoutException | NetworkError | ProtocolError
  | ProxyError | UnsupportedProtocol => Some TransportError
  | ConnectTimeout | ReadTimeout | WriteTimeout | PoolTimeout =>
      Some TimeoutException
  | ConnectError | ReadError | WriteError | CloseError => Some NetworkError
  | LocalProtocolError | RemoteProtocolError => Some ProtocolError
  end.

Definition class_eqb (c d : class) : bool :=
  match c, d with
  | Exception, Exception | TypeError, TypeError | ValueError, ValueError
  | RuntimeError, RuntimeError | JSONDecodeError, JSONDecodeError
  | UnicodeError, UnicodeError | UnicodeDecodeError, UnicodeDecodeError
  | HTTPError, HTTPError | RequestError, RequestError
  | TransportError, TransportError | TimeoutException, TimeoutException
  | ConnectTimeout, ConnectTimeout | ReadTimeout, ReadTimeout
  | WriteTimeout, WriteTimeout | PoolTimeout, PoolTimeout
  | NetworkError, NetworkError | ConnectError, ConnectError
  | ReadError, ReadError | WriteError, WriteError | CloseError, CloseError
  | ProtocolError, ProtocolError | LocalProtocolError, LocalProtocolError
  | RemoteProtocolError, RemoteProtocolError | ProxyError, ProxyError
  | UnsupportedProtocol, UnsupportedProtocol | DecodingError, DecodingError
  | TooManyRedirects, TooManyRedirects | HTTPStatusError, HTTPStatusError
  | InvalidURL, InvalidURL | CookieConflict, CookieConflict
  | StreamError, StreamError => true
  | _, _ => false
  end.

(** [issubclass(c, d)], walking up the bases; the hierarchy is five
    classes deep. *)
Fixpoint issubclass_upto (fuel : nat) (c d : class) : bool :=
  class_eqb c d ||
  match fuel with
  | O => false
  | S fuel' =>
      match base c with
      | Some b => issubclass_upto fuel' b d
      | None => false
      end
  end.

Definition issubclass : class -> class -> bool := issubclass_upto 6.

(** An exception object: its class and [str(e)]. *)
Record t : Type := raise_ { cls : class; message : string }.

(** [isinstance(e, c)] *)
Definition isinstance (e : t) (c : class) : bool := issubclass (cls e) c.

End Exn.

(** ** Coroutines *)

(** What one HTTP exchange needs and yields. *)
Record request : Type := Request_ {
  req_method : string;
  req_url : string;
  req_params : value;
  req_json : value;
  req_headers : value;
  req_timeout : Q
}.

Record response : Type := Response_ {
  status_code : Z;
  reason_phrase : string;
  url : string;
  headers : list (string * string);
  content : string
}.

(** [await client.request(...)] returns a response or raises. *)
Inductive outcome : Type :=
| Responded (r : response)
| Failed (e : Exn.t).

(** A coroutine: it returns, raises, prints a line and goes on, or awaits
    one HTTP exchange and goes on with its outcome. *)
Inductive Coro (A : Type) : Type :=
| Ret (a : A)
| Raise (e : Exn.t)
| Print (line : string) (k : Coro A)
| Await (r : request) (k : outcome -> Coro A).

Arguments Raise {A} e.

Fixpoint bind {A B : Type} (m : Coro A) (f : A -> Coro B) : Coro B :=
  match m with
  | Ret a => f a
  | Raise e => Raise e
  | Print s k => Print s (bind k f)
  | Await r k => Await r (fun o => bind (k o) f)
  end.

(** [try: m except c as e: h e] *)
Fixpoint try_except {A : Type} (m : Coro A) (c : Exn.class)
  (h : Exn.t -> Coro A) : Coro A :=
  match m with
  | Ret a => Ret a
  | Raise e => if Exn.isinstance e c then h e else Raise e
  | Print s k => Print s (try_except k c h)
  | Await r k => Await r (fun o => try_except (k o) c h)
  end.

Declare Scope coro_scope.
Delimit Scope coro_scope with coro.
Notation "x <- m ;; k" := (bind m (fun x => k))
  (at level 61, m at next level, right associativity) : coro_scope.
Notation "m ;; k" := (bind m (fun _ => k))
  (at level 61, right associativity) : coro_scope.
Open Scope coro_scope.

Definition print (line : string) : Coro unit := Print line (Ret tt).

(** ** JSON documents *)

Module Json.

(** The result of a parser at a position: the value and the rest of the
    text, a syntax error, or recursion budget used up. *)
Inductive parsed (A : Type) : Type :=
| Parsed (a : A) (rest : string)
| Invalid
| Exhausted.

Arguments Invalid {A}.
Arguments Exhausted {A}.

Definition is_ws (c : ascii) : bool :=
  (c =? " ")%char || (c =? "009")%char || (c =? "010")%char
  || (c =? "013")%char.

Fixpoint skip_ws (s : string) : string :=
  match s with
  | String c s' => if is_ws c then skip_ws s' else s
  | EmptyString => s
  end.

(** [s.startswith(p)], giving what follows [p]. *)
Fixpoint after_prefix (p s : string) : option string :=
  match p, s with
  | EmptyString, _ => Some s
  | String a p', String b s' =>
      if (a =? b)%char then after_prefix p' s' else None
  | String _ _, EmptyString => None
  end.

Fixpoint take_digits (s : string) : string * string :=
  match s with
  | String c s' =>
      if is_digit c then
        let (d, r) := take_digits s' in (String c d, r)
      else (EmptyString, s)
  | EmptyString => (EmptyString, s)
  end.

Definition digit_val (c : ascii) : Z := Z.of_nat (nat_of_ascii c) - 48.

Fixpoint int_of_digits (acc : Z) (s : string) : Z :=
  match s with
  | String c s' => int_of_digits (10 * acc + digit_val c) s'
  | EmptyString => acc
  end.

(** The number pattern of the scanner: an optional minus sign, then a
    zero or a non-zero digit followed by digits; then, optionally, a dot
    and at least one digit; then, optionally, [e] or [E], an optional
    sign and at least one digit.  A match with a fraction or an exponent
    is a float, any other an int. *)
Definition scan_integer (s : string) : option (string * string) :=
  match s with
  | String c s' =>
      if (c =? "0")%char then Some ("0", s')
      else if is_digit c then
        let (d, r) := take_digits s' in Some (String c d, r)
      else None
  | EmptyString => None
  end.

Definition scan_fraction (s : string) : string * string :=
  match after_prefix "." s with
  | Some s' =>
      match take_digits s' with
      | (EmptyString, _) => (EmptyString, s)
      | (d, r) => (String "." d, r)
      end
  | None => (EmptyString, s)
  end.

Definition scan_exponent (s : string) : string * string :=
  match s with
  | String c s' =>
      if (c =? "e")%char || (c =? "E")%char then
        let (sign, s'') :=
          match s' with
          | String c' t =>
              if (c' =? "-")%char || (c' =? "+")%char
              then (String c' EmptyString, t) else (EmptyString, s')
          | EmptyString => (EmptyString, s')
          end in
        match take_digits s'' with
        | (EmptyString, _) => (EmptyString, s)
        | (d, r) => (String c (sign ++ d), r)
        end
      else (EmptyString, s)
  | EmptyString => (EmptyString, s)
  end.

Definition scan_number (s : string) : option (value * string) :=
  let (neg, s1) :=
    match after_prefix "-" s with
    | Some t => (true, t)
    | None => (false, s)
    end in
  match scan_integer s1 with
  | None => None
  | Some (i, s2) =>
      let (f, s3) := scan_fraction s2 in
      let (e, s4) := scan_exponent s3 in
      let sign := if neg then "-" else "" in
      match f, e with
      | EmptyString, EmptyString =>
          let z := int_of_digits 0 i in
          Some (VInt (if neg then - z else z), s4)
      | _, _ => Some (VFloat (sign ++ i ++ f ++ e), s4)
      end
  end.

(** Hexadecimal escapes [\uXXXX]. *)
Definition hex_val (c : ascii) : option Z :=
  let n := Z.of_nat (nat_of_ascii c) in
  if (48 <=? n) && (n <=? 57) then Some (n - 48)
  else if (65 <=? n) && (n <=? 70) then Some (n - 55)
  else if (97 <=? n) && (n <=? 102) then Some (n - 87)
  else None.

Definition hex4 (s : string) : option (Z * string) :=
  match s with
  | String a (String b (String c (String d r))) =>
      match hex_val a, hex_val b, hex_val c, hex_val d with
      | Some x, Some y, Some z, Some w =>
          Some (((x * 16 + y) * 16 + z) * 16 + w, r)
      | _, _, _, _ => None
      end
  | _ => None
  end.

Definition byte (z : Z) : ascii := ascii_of_nat (Z.to_nat z).

(** The code point as text, in UTF-8. *)
Definition chr (u : Z) : string :=
  if u <? 128 then String (byte u) EmptyString
  else if u <? 2048 then
    String (byte (192 + u / 64)) (String (byte (128 + u mod 64)) EmptyString)
  else if u <? 65536 then
    String (byte (224 + u / 4096))
      (String (byte (128 + (u / 64) mod 64))
         (String (byte (128 + u mod 64)) EmptyString))
  else
    String (byte (240 + u / 262144))
      (String (byte (128 + (u / 4096) mod 64))
         (String (byte (128 + (u / 64) mod 64))
            (String (byte (128 + u mod 64)) EmptyString))).

(** A [\uXXXX] escape, after the [u]: a high surrogate followed by an
    escaped low surrogate is one code point. *)
Definition scan_unicode (s : string) : option (string * string) :=
  match hex4 s with
  | None => None
  | Some (u, r) =>
      if (55296 <=? u) && (u <=? 56319) then
        match after_prefix "\u" r with
        | Some r' =>
            match hex4 r' with
            | Some (u2, r'') =>
                if (56320 <=? u2) && (u2 <=? 57343)
                then Some (chr (65536 + ((u - 55296) * 1024 + (u2 - 56320))),
                           r'')
                else Some (chr u, r)
            | None => Some (chr u, r)
            end
        | None => Some (chr u, r)
        end
      else Some (chr u, r)
  end.

Definition scan_escape (s : string) : option (string * string) :=
  match s with
  | String c r =>
      if (c =? "034")%char then Some (String c EmptyString, r)
      else if (c =? "\")%char then Some ("\", r)
      else if (c =? "/")%char then Some ("/", r)
      else if (c =? "b")%char then Some (String "008" EmptyString, r)
      else if (c =? "f")%char then Some (String "012" EmptyString, r)
      else if (c =? "n")%char then Some (String "010" EmptyString, r)
      else if (c =? "r")%char then Some (String "013" EmptyString, r)
      else if (c =? "t")%char then Some (String "009" EmptyString, r)
      else if (c =? "u")%char then scan_unicode r
      else None
  | EmptyString => None
  end.

(** A string, after its opening quote, in strict mode: control
    characters are refused. *)
Fixpoint scan_string (fuel : nat) (s : string) : parsed string :=
  match fuel with
  | O => Exhausted
  | S fuel' =>
      match s with
      | EmptyString => Invalid
      | String c r =>
          if (c =? "034")%char then Parsed EmptyString r
          else if (c =? "\")%char then
            match scan_escape r with
            | None => Invalid
            | Some (t, r') =>
                match scan_string fuel' r' with
                | Parsed u r'' => Parsed (t ++ u) r''
                | Invalid => Invalid
                | Exhausted => Exhausted
                end
            end
          else if (nat_of_ascii c <? 32)%nat then Invalid
          else
            match scan_string fuel' r with
            | Parsed u r'' => Parsed (String c u) r''
            | Invalid => Invalid
            | Exhausted => Exhausted
            end
      end
  end.

(** One value at the start of the text (no leading blanks), as the
    scanner dispatches on its first character. *)
Fixpoint scan_value (fuel : nat) (s : string) : parsed value :=
  match fuel with
  | O => Exhausted
  | S fuel' =>
      match s with
      | EmptyString => Invalid
      | String c r =>
          if (c =? "034")%char then
            match scan_string (String.length r + 1) r with
            | Parsed t r' => Parsed (VStr t) r'
            | Invalid => Invalid
            | Exhausted => Exhausted
            end
          else if (c =? "{")%char then
            match after_prefix "}" (skip_ws r) with
            | Some r' => Parsed (VDict []) r'
            | None =>
                match scan_members fuel' [] (skip_ws r) with
                | Parsed d r' => Parsed (VDict d) r'
                | Invalid => Invalid
                | Exhausted => Exhausted
                end
            end
          else if (c =? "[")%char then
            match after_prefix "]" (skip_ws r) with
            | Some r' => Parsed (VList []) r'
            | None =>
                match scan_elements fuel' (skip_ws r) with
                | Parsed l r' => Parsed (VList l) r'
                | Invalid => Invalid
                | Exhausted => Exhausted
                end
            end
          else
            match after_prefix "null" s, after_prefix "true" s,
                  after_prefix "false" s with
            | Some r', _, _ => Parsed VNone r'
            | _, Some r', _ => Parsed (VBool true) r'
            | _, _, Some r' => Parsed (VBool false) r'
            | None, None, None =>
                match scan_number s with
                | Some (v, r') => Parsed v r'
                | None =>
                    match after_prefix "NaN" s, after_prefix "Infinity" s,
                          after_prefix "-Infinity" s with
                    | Some r', _, _ => Parsed (VFloat "NaN") r'
                    | _, Some r', _ => Parsed (VFloat "Infinity") r'
                    | _, _, Some r' => Parsed (VFloat "-Infinity") r'
                    | None, None, None => Invalid
                    end
                end
            end
      end
  end

(** The elements of an array after its bracket, up to the closing one. *)
with scan_elements (fuel : nat) (s : string) : parsed (list value) :=
  match fuel with
  | O => Exhausted
  | S fuel' =>
      match scan_value fuel' s with
      | Invalid => Invalid
      | Exhausted => Exhausted
      | Parsed v r =>
          match after_prefix "]" (skip_ws r), after_prefix "," (skip_ws r) with
          | Some r', _ => Parsed [v] r'
          | None, Some r' =>
              match scan_elements fuel' (skip_ws r') with
              | Parsed l r'' => Parsed (v :: l) r''
              | Invalid => Invalid
              | Exhausted => Exhausted
              end
          | None, None => Invalid
          end
      end
  end

(** The members of an object after its brace, up to the closing one; a
    repeated key keeps its first place and its last value. *)
with scan_members (fuel : nat) (acc : dict) (s : string) : parsed dict :=
  match fuel with
  | O => Exhausted
  | S fuel' =>
      match after_prefix (String "034" EmptyString) s with
      | Some r =>
          match scan_string (String.length r + 1) r with
          | Invalid => Invalid
          | Exhausted => Exhausted
          | Parsed k r1 =>
              match after_prefix ":" (skip_ws r1) with
              | Some r2 =>
                  match scan_value fuel' (skip_ws r2) with
                  | Invalid => Invalid
                  | Exhausted => Exhausted
                  | Parsed v r3 =>
                      let acc' := Py.set k v acc in
                      match after_prefix "}" (skip_ws r3),
                            after_prefix "," (skip_ws r3) with
                      | Some r4, _ => Parsed acc' r4
                      | None, Some r4 => scan_members fuel' acc' (skip_ws r4)
                      | None, None => Invalid
                      end
                  end
              | None => Invalid
              end
          end
      | None => Invalid
      end
  end.

(** [json.loads(text)] for a text, a [str] held in UTF-8: one value
    between optional blanks and nothing else, or no value
    ([JSONDecodeError]).  Every recursive call starts at least one
    character further, so twice the length of the text is budget
    enough. *)
Definition loads (text : string) : option value :=
  match scan_value (2 * String.length text + 2) (skip_ws text) with
  | Parsed v r =>
      match skip_ws r with
      | EmptyString => Some v
      | _ => None
      end
  | _ => None
  end.

(** *** From bytes to text

    [response.json()] hands the bytes of the body to [json.loads], which
    guesses their encoding from a byte order mark or from the place of
    the zero bytes among the first four, and decodes them with the error
    handler [surrogatepass] before it parses.  A text is held here in
    UTF-8, surrogates included, so decoding UTF-8 is checking it. *)

Inductive encoding : Type :=
| Utf8 | Utf8_sig | Utf16 | Utf16_le | Utf16_be | Utf32 | Utf32_le | Utf32_be.

Definition bytes3 (a b c : ascii) : string :=
  String a (String b (String c EmptyString)).

Definition bytes4 (a b c d : ascii) : string :=
  String a (String b (String c (String d EmptyString))).

Definition starts (p s : string) : bool :=
  match after_prefix p s with Some _ => true | None => false end.

Definition is_zero (c : ascii) : bool := (c =? "000")%char.

(** [json.detect_encoding(b)] *)
Definition detect_encoding (b : string) : encoding :=
  if starts (bytes4 "000" "000" "254" "255") b
     || starts (bytes4 "255" "254" "000" "000") b then Utf32
  else if starts (String "254" (String "255" EmptyString)) b
          || starts (String "255" (String "254" EmptyString)) b then Utf16
  else if starts (bytes3 "239" "187" "191") b then Utf8_sig
  else
    match b with
    | String b0 (String b1 (String b2 (String b3 _))) =>
        if is_zero b0 then (if is_zero b1 then Utf32_be else Utf16_be)
        else if is_zero b1 then
          (if is_zero b2 && is_zero b3 then Utf32_le else Utf16_le)
        else Utf8
    | String b0 (String b1 EmptyString) =>
        if is_zero b0 then Utf16_be
        else if is_zero b1 then Utf16_le
        else Utf8
    | _ => Utf8
    end.

Definition code (c : ascii) : Z := Z.of_nat (nat_of_ascii c).

Definition between (lo hi : Z) (c : ascii) : bool :=
  (lo <=? code c) && (code c <=? hi).

(** Well-formed UTF-8, in which [surrogatepass] also lets through the
    three bytes of a surrogate ([ED A0..BF 80..BF]). *)
Fixpoint utf8_ok (s : string) : bool :=
  match s with
  | EmptyString => true
  | String a r =>
      if code a <? 128 then utf8_ok r
      else
        match r with
        | String b r1 =>
            if between 194 223 a then between 128 191 b && utf8_ok r1
            else
              match r1 with
              | String c r2 =>
                  if between 224 239 a then
                    (if code a =? 224 then between 160 191 b
                     else between 128 191 b)
                    && between 128 191 c && utf8_ok r2
                  else
                    match r2 with
                    | String d r3 =>
                        between 240 244 a
                        && (if code a =? 240 then between 144 191 b
                            else if code a =? 244 then between 128 143 b
                            else between 128 191 b)
                        && between 128 191 c && between 128 191 d
                        && utf8_ok r3
                    | EmptyString => false
                    end
              | EmptyString => false
              end
        | EmptyString => false
        end
  end.

(** The 16-bit and the 32-bit units of the bytes, if they are whole. *)
Fixpoint units16 (big : bool) (s : string) : option (list Z) :=
  match s with
  | EmptyString => Some []
  | String a (String b r) =>
      option_map
        (cons (if big then 256 * code a + code b else 256 * code b + code a))
        (units16 big r)
  | String _ EmptyString => None
  end.

Fixpoint units32 (big : bool) (s : string) : option (list Z) :=
  match s with
  | EmptyString => Some []
  | String a (String b (String c (String d r))) =>
      option_map
        (cons (if big
               then ((256 * code a + code b) * 256 + code c) * 256 + code d
               else ((256 * code d + code c) * 256 + code b) * 256 + code a))
        (units32 big r)
  | String _ _ => None
  end.

(** A high surrogate and the low one after it are one code point; a
    surrogate on its own passes as it is. *)
Fixpoint join_surrogates (l : list Z) : list Z :=
  match l with
  | [] => []
  | h :: t =>
      match t with
      | lo :: t' =>
          if (55296 <=? h) && (h <=? 56319) && (56320 <=? lo) && (lo <=? 57343)
          then 65536 + ((h - 55296) * 1024 + (lo - 56320)) :: join_surrogates t'
          else h :: join_surrogates t
      | [] => [h]
      end
  end.

Definition text_of (l : list Z) : string :=
  fold_right (fun u s => chr u ++ s) EmptyString l.

Definition decode_utf8 (s : string) : option string :=
  if utf8_ok s then Some s else None.

Definition decode_utf16 (big : bool) (s : string) : option string :=
  option_map (fun l => text_of (join_surrogates l)) (units16 big s).

Definition decode_utf32 (big : bool) (s : string) : option string :=
  match units32 big s with
  | Some l => if forallb (fun u => u <=? 1114111) l then Some (text_of l) else None
  | None => None
  end.

(** [b.decode(encoding, 'surrogatepass')]; the codecs [utf-8-sig],
    [utf-16] and [utf-32] take off the byte order mark they begin with. *)
Definition decode (e : encoding) (b : string) : option string :=
  match e with
  | Utf8 => decode_utf8 b
  | Utf8_sig =>
      match after_prefix (bytes3 "239" "187" "191") b with
      | Some r => decode_utf8 r
      | None => decode_utf8 b
      end
  | Utf16_le => decode_utf16 false b
  | Utf16_be => decode_utf16 true b
  | Utf16 =>
      match after_prefix (String "255" (String "254" EmptyString)) b,
            after_prefix (String "254" (String "255" EmptyString)) b with
      | Some r, _ => decode_utf16 false r
      | None, Some r => decode_utf16 true r
      | None, None => decode_utf16 false b
      end
  | Utf32_le => decode_utf32 false b
  | Utf32_be => decode_utf32 true b
  | Utf32 =>
      match after_prefix (bytes4 "255" "254" "000" "000") b,
            after_prefix (bytes4 "000" "000" "254" "255") b with
      | Some r, _ => decode_utf32 false r
      | None, Some r => decode_utf32 true r
      | None, None => decode_utf32 false b
      end
  end.

Definition codec_name (e : encoding) : string :=
  match e with
  | Utf8 | Utf8_sig => "utf-8"
  | Utf16 | Utf16_le => "utf-16-le"
  | Utf16_be => "utf-16-be"
  | Utf32 | Utf32_le => "utf-32-le"
  | Utf32_be => "utf-32-be"
  end.

(** [json.loads(b)] for bytes: the value, or the exception raised, a
    [UnicodeDecodeError] when the bytes are not in the encoding guessed
    and a [JSONDecodeError] when the text is not a JSON document.  The
    message of either stands for the one of the interpreter, which goes
    on with the place of the error. *)
Definition loads_bytes (b : string) : Exn.t + value :=
  let e := detect_encoding b in
  match decode e b with
  | None =>
      inl (Exn.raise_ Exn.UnicodeDecodeError
             ("'" ++ codec_name e ++ "' codec can't decode bytes"))
  | Some text =>
      match loads text with
      | Some v => inr v
      | None => inl (Exn.raise_ Exn.JSONDecodeError "Expecting value")
      end
  end.

End Json.

(** ** The HTTP client *)

Module Httpx.

(** [response.is_success] *)
Definition is_success (r : response) : bool :=
  (200 <=? status_code r) && (status_code r <=? 299).

(** Header names are looked up in lower case. *)
Fixpoint header (name : string) (h : list (string * string)) : option string :=
  match h with
  | [] => None
  | (k, v) :: h' => if (k =? name)%string then Some v else header name h'
  end.

(** [response.has_redirect_location] *)
Definition has_redirect_location (r : response) : bool :=
  let c := status_code r in
  ((c =? 301) || (c =? 302) || (c =? 303) || (c =? 307) || (c =? 308))
  && match header "location" (headers r) with Some _ => true | None => false end.

Definition error_type (r : response) : string :=
  let k := status_code r / 100 in
  if k =? 1 then "Informational response"
  else if k =? 3 then "Redirect response"
  else if k =? 4 then "Client error"
  else if k =? 5 then "Server error"
  else "Invalid status code".

Definition newline : string := String "010" EmptyString.

(** The message of the [HTTPStatusError] for a response. *)
Definition status_message (r : response) : string :=
  let code := str_of_int (status_code r) in
  error_type r ++ " '" ++ code ++ " " ++ reason_phrase r
  ++ "' for url '" ++ url r ++ "'" ++ newline
  ++ (if has_redirect_location r then
        "Redirect location: '"
        ++ match header "location" (headers r) with Some l => l | None => "" end
        ++ "'" ++ newline
      else "")
  ++ "For more information check: "
  ++ "https://developer.mozilla.org/en-US/docs/Web/HTTP/Status/" ++ code.

(** [response.raise_for_status()]: every status outside 2xx raises. *)
Definition raise_for_status (r : response) : Coro unit :=
  if is_success r then Ret tt
  else Raise (Exn.raise_ Exn.HTTPStatusError (status_message r)).

(** [response.json()], that is [json.loads(response.content)]. *)
Definition json (r : response) : Coro value :=
  match Json.loads_bytes (content r) with
  | inr v => Ret v
  | inl e => Raise e
  end.

(** [await client.request(method, url, params=..., json=..., headers=...,
    timeout=...)] *)
Definition client_request (method url_ : string) (params json_ headers_ : value)
  (timeout : Q) : Coro response :=
  Await (Request_ method url_ params json_ headers_ timeout)
        (fun o => match o with
                  | Responded r => Ret r
                  | Failed e => Raise e
                  end).

End Httpx.

(** ** The request translator *)

Definition PETSTORE_API_BASE : string := "https://petstore3.swagger.io/api/v3".
Definition USER_AGENT : string := "petstore-mcp-agent/1.0".

(** The body of [fetch_from_petstore], its five parameters bound. *)
Definition fetch_from_petstore (method path : string)
  (params json headers : value) : Coro value :=
  let url := PETSTORE_API_BASE ++ path in
  let headers :=
    if truthy headers then headers
    else VDict [("User-Agent", VStr USER_AGENT);
                ("Content-Type", VStr "application/json")] in
  try_except
    (response <- Httpx.client_request method url params json headers 30 ;;
     Httpx.raise_for_status response ;;
     if status_code response =? 204 then Ret VNone
     else Httpx.json response)
    Exn.HTTPError
    (fun e => print ("HTTP request failed: " ++ Exn.message e) ;; Ret VNone).

(** *** Calling the translator

    Every call site passes [method] and [path] by position and the rest by
    keyword.  A keyword that names no parameter, or one already bound, is
    a [TypeError] raised by the call itself, before the body runs. *)

Record bound : Type := Bound_ {
  b_params : value;
  b_json : value;
  b_headers : value
}.

Definition unbound : bound := Bound_ VNone VNone VNone.

Definition bind_keyword (b : bound) (kw : string * value) : Exn.t + bound :=
  let (k, v) := kw in
  if (k =? "params")%string then inr (Bound_ v (b_json b) (b_headers b))
  else if (k =? "json")%string then inr (Bound_ (b_params b) v (b_headers b))
  else if (k =? "headers")%string then inr (Bound_ (b_params b) (b_json b) v)
  else if ((k =? "method") || (k =? "path"))%string then
    inl (Exn.raise_ Exn.TypeError
           ("fetch_from_petstore() got multiple values for argument '"
            ++ k ++ "'"))
  else
    inl (Exn.raise_ Exn.TypeError
           ("fetch_from_petstore() got an unexpected keyword argument '"
            ++ k ++ "'")).

Fixpoint bind_keywords (b : bound) (kws : list (string * value))
  : Exn.t + bound :=
  match kws with
  | [] => inr b
  | kw :: kws' =>
      match bind_keyword b kw with
      | inl e => inl e
      | inr b' => bind_keywords b' kws'
      end
  end.

(** [await fetch_from_petstore(method, path, k1=v1, ...)] *)
Definition call_fetch_from_petstore (method path : string)
  (kws : list (string * value)) : Coro value :=
  match bind_keywords unbound kws with
  | inl e => Raise e
  | inr b => fetch_from_petstore method path (b_params b) (b_json b) (b_headers b)
  end.

(** ** The tool registry *)

Definition add_pet (body : value) : Coro value :=
  let path := "/pet" in
  response_data <- call_fetch_from_petstore "POST" path [("json", body)] ;;
  Ret response_data.

Definition update_pet (body : value) : Coro value :=
  let path := "/pet" in
  response_data <- call_fetch_from_petstore "PUT" path [("json", body)] ;;
  Ret response_data.

Definition find_pets_by_status (status : list string) : Coro value :=
  let path := "/pet/findByStatus" in
  let params := VDict [("status", VStr (join "," status))] in
  response_data <- call_fetch_from_petstore "GET" path [("params", params)] ;;
  Ret response_data.

Definition find_pets_by_tags (tags : list string) : Coro value :=
  let path := "/pet/findByTags" in
  let params := VDict [("tags", VStr (join "," tags))] in
  response_data <- call_fetch_from_petstore "GET" path [("params", params)] ;;
  Ret response_data.

Definition get_pet_by_id (pet_id : Z) : Coro value :=
  let path := "/pet/" ++ str_of_int pet_id in
  response_data <- call_fetch_from_petstore "GET" path [] ;;
  Ret response_data.

Definition update_pet_with_form (pet_id : Z) (name status : option string)
  : Coro value :=
  let path := "/pet/" ++ str_of_int pet_id in
  let data :=
    VDict (filter (fun kv => negb (is_None (snd kv)))
             [("name", of_opt_str name); ("status", of_opt_str status)]) in
  call_fetch_from_petstore "POST" path [("params", data)] ;;
  Ret VNone.

Definition delete_pet (pet_id : Z) (api_key : option string) : Coro value :=
  let path := "/pet/" ++ str_of_int pet_id in
  let headers :=
    if truthy (of_opt_str api_key)
    then VDict [("api_key", of_opt_str api_key)] else VDict [] in
  call_fetch_from_petstore "DELETE" path [("headers", headers)] ;;
  Ret VNone.

Definition upload_file (pet_id : Z) (additional_metadata file : option string)
  : Coro value :=
  let path := "/pet/" ++ str_of_int pet_id ++ "/uploadImage" in
  let files :=
    if truthy (of_opt_bytes file)
    then VDict [("file", of_opt_bytes file)] else VDict [] in
  let data :=
    if truthy (of_opt_str additional_metadata)
    then VDict [("additionalMetadata", of_opt_str additional_metadata)]
    else VDict [] in
  response_data <-
    call_fetch_from_petstore "POST" path [("params", data); ("files", files)] ;;
  Ret response_data.

Definition get_inventory : Coro value :=
  let path := "/store/inventory" in
  response_data <- call_fetch_from_petstore "GET" path [] ;;
  Ret response_data.

Definition place_order (body : value) : Coro value :=
  let path := "/store/order" in
  response_data <- call_fetch_from_petstore "POST" path [("json", body)] ;;
  Ret response_data.

Definition get_order_by_id (order_id : Z) : Coro value :=
  let path := "/store/order/" ++ str_of_int order_id in
  response_data <- call_fetch_from_petstore "GET" path [] ;;
  Ret response_data.

Definition delete_order (order_id : Z) : Coro value :=
  let path := "/store/order/" ++ str_of_int order_id in
  call_fetch_from_petstore "DELETE" path [] ;;
  Ret VNone.

Definition create_user (body : value) : Coro value :=
  let path := "/user" in
  call_fetch_from_petstore "POST" path [("json", body)] ;;
  Ret VNone.

Definition create_users_with_array_input (body : list value) : Coro value :=
  let path := "/user/createWithArray" in
  call_fetch_from_petstore "POST" path [("json", VList body)] ;;
  Ret VNone.

Definition create_users_with_list_input (body : list value) : Coro value :=
  let path := "/user/createWithList" in
  call_fetch_from_petstore "POST" path [("json", VList body)] ;;
  Ret VNone.

Definition login_user (username password : string) : Coro value :=
  let path := "/user/login" in
  let params :=
    VDict [("username", VStr username); ("password", VStr password)] in
  response_data <- call_fetch_from_petstore "GET" path [("params", params)] ;;
  Ret response_data.

Definition logout_user : Coro value :=
  let path := "/user/logout" in
  call_fetch_from_petstore "GET" path [] ;;
  Ret VNone.

Definition get_user_by_name (username : string) : Coro value :=
  let path := "/user/" ++ username in
  response_data <- call_fetch_from_petstore "GET" path [] ;;
  Ret response_data.

Definition update_user (username : string) (body : value) : Coro value :=
  let path := "/user/" ++ username in
  call_fetch_from_petstore "PUT" path [("json", body)] ;;
  Ret VNone.

Definition delete_user (username : string) : Coro value :=
  let path := "/user/" ++ username in
  call_fetch_from_petstore "DELETE" path [] ;;
  Ret VNone.

(** One invocation by the host: a registered tool and its arguments. *)
Inductive invocation : Type :=
| Add_pet (body : value)
| Update_pet (body : value)
| Find_pets_by_status (status : list string)
| Find_pets_by_tags (tags : list string)
| Get_pet_by_id (pet_id : Z)
| Update_pet_with_form (pet_id : Z) (name status : option string)
| Delete_pet (pet_id : Z) (api_key : option string)
| Upload_file (pet_id : Z) (additional_metadata file : option string)
| Get_inventory
| Place_order (body : value)
| Get_order_by_id (order_id : Z)
| Delete_order (order_id : Z)
| Create_user (body : value)
| Create_users_with_array_input (body : list value)
| Create_users_with_list_input (body : list value)
| Login_user (username password : string)
| Logout_user
| Get_user_by_name (username : string)
| Update_user (username : string) (body : value)
| Delete_user (username : string).

Definition invoke (c : invocation) : Coro value :=
  match c with
  | Add_pet body => add_pet body
  | Update_pet body => update_pet body
  | Find_pets_by_status status => find_pets_by_status status
  | Find_pets_by_tags tags => find_pets_by_tags tags
  | Get_pet_by_id pet_id => get_pet_by_id pet_id
  | Update_pet_with_form pet_id name status =>
      update_pet_with_form pet_id name status
  | Delete_pet pet_id api_key => delete_pet pet_id api_key
  | Upload_file pet_id additional_metadata file =>
      upload_file pet_id additional_metadata file
  | Get_inventory => get_inventory
  | Place_order body => place_order body
  | Get_order_by_id order_id => get_order_by_id order_id
  | Delete_order order_id => delete_order order_id
  | Create_user body => create_user body
  | Create_users_with_array_input body => create_users_with_array_input body
  | Create_users_with_list_input body => create_users_with_list_input body
  | Login_user username password => login_user username password
  | Logout_user => logout_user
  | Get_user_by_name username => get_user_by_name username
  | Update_user username body => update_user username body
  | Delete_user username => delete_user username
  end.

(** ** Running a coroutine *)

(** What an invocation does that can be seen from outside it. *)
Inductive event : Type :=
| Exchange (r : request) (o : outcome)
| Printed (line : string).

(** How an invocation ends for its caller. *)
Inductive result (A : Type) : Type :=
| Returned (a : A)
| Raised (e : Exn.t).

Arguments Raised {A} e.

(** The remote service and the network: what each request meets. *)
Definition network := request -> outcome.

Fixpoint run {A : Type} (net : network) (m : Coro A) : list event * result A :=
  match m with
  | Ret a => ([], Returned a)
  | Raise e => ([], Raised e)
  | Print s k => let (t, x) := run net k in (Printed s :: t, x)
  | Await r k => let (t, x) := run net (k (net r)) in (Exchange r (net r) :: t, x)
  end.

Definition trace {A : Type} (net : network) (m : Coro A) : list event :=
  fst (run net m).

Definition outcome_of {A : Type} (net : network) (m : Coro A) : result A :=
  snd (run net m).

(** The requests sent and the texts given to [print], in order. *)
Definition requests (t : list event) : list request :=
  flat_map (fun ev => match ev with Exchange r _ => [r] | Printed _ => [] end) t.

Definition printed (t : list event) : list string :=
  flat_map (fun ev => match ev with Printed s => [s] | Exchange _ _ => [] end) t.

(** * Vocabulary of the statements *)

(** ** What the translator does with each outcome *)

(** The headers the translator falls back on. *)
Definition default_headers : value :=
  VDict [("User-Agent", VStr USER_AGENT);
         ("Content-Type", VStr "application/json")].

(** The request [fetch_from_petstore] builds from its bound parameters. *)
Definition fetch_request (method path : string) (params json headers : value)
  : request :=
  Request_ method (PETSTORE_API_BASE ++ path) params json
    (if truthy headers then headers else default_headers) 30.

(** The text printed for a caught error. *)
Definition diagnostic (detail : string) : string :=
  "HTTP request failed: " ++ detail.

(** The texts printed and the result, by outcome of the exchange. *)
Definition settle (o : outcome) : list string * result value :=
  match o with
  | Failed e =>
      if Exn.isinstance e Exn.HTTPError
      then ([diagnostic (Exn.message e)], Returned VNone)
      else ([], Raised e)
  | Responded resp =>
      if Httpx.is_success resp then
        if status_code resp =? 204 then ([], Returned VNone)
        else match Json.loads_bytes (content resp) with
             | inr v => ([], Returned v)
             | inl e => ([], Raised e)
             end
      else ([diagnostic (Httpx.status_message resp)], Returned VNone)
  end.

(** A tool that awaits the translator and returns [None] whatever came
    back keeps only a raised exception. *)
Definition discard (x : result value) : result value :=
  match x with
  | Returned _ => Returned VNone
  | Raised e => Raised e
  end.

(** The first request a coroutine awaits, if it gets that far. *)
Fixpoint first_request {A : Type} (m : Coro A) : option request :=
  match m with
  | Await r _ => Some r
  | Print _ k => first_request k
  | Ret _ | Raise _ => None
  end.

(** What the call of [upload_file] to the translator raises. *)
Definition unexpected_files : Exn.t :=
  Exn.raise_ Exn.TypeError
    "fetch_from_petstore() got an unexpected keyword argument 'files'".

(** How a run of the translator followed by a plain [return] looks. *)
Definition exchanged (net : network) (r : request)
  (post : result value -> result value) : list event * result value :=
  (Exchange r (net r) :: map Printed (fst (settle (net r))),
   post (snd (settle (net r)))).

(** Every invocation either fails in the call to the translator, before
    any request, or makes the one exchange of the translator and hands
    its result on, as it is or discarded. *)
Inductive shape (net : network) (c : invocation) : Prop :=
| shape_call_fails :
    first_request (invoke c) = None ->
    run net (invoke c) = ([], Raised unexpected_files) ->
    shape net c
| shape_exchange (r : request) (post : result value -> result value) :
    first_request (invoke c) = Some r ->
    run net (invoke c) = exchanged net r post ->
    post = (fun x => x) \/ post = discard ->
    shape net c.

(** The failures of an exchange and the exception each one is inside the
    translator: a transport error or a timeout raised by the request, or
    a status outside 2xx, which [raise_for_status] turns into an
    [HTTPStatusError]. *)
Inductive failure : outcome -> Exn.t -> Prop :=
| failure_transport (e : Exn.t) :
    Exn.isinstance e Exn.TransportError = true -> failure (Failed e) e
| failure_timeout (e : Exn.t) :
    Exn.isinstance e Exn.TimeoutException = true -> failure (Failed e) e
| failure_status (resp : response) :
    status_code resp < 200 \/ 299 < status_code resp ->
    failure (Responded resp)
      (Exn.raise_ Exn.HTTPStatusError (Httpx.status_message resp)).

(** ** Sample services *)

(** A service that cannot be reached. *)
Definition refusing : network :=
  fun _ => Failed (Exn.raise_ Exn.ConnectError "All connection attempts failed").

(** A 204 response whose body is not a JSON document. *)
Definition no_content : response :=
  Response_ 204 "No Content" (PETSTORE_API_BASE ++ "/store/inventory") [] "<html>".

(** A service that accepts the connection and never answers. *)
Definition stalling : network :=
  fun _ => Failed (Exn.raise_ Exn.ReadTimeout "The read operation timed out").

(** ** The table of the registry *)

(** Method and path of each tool, as the specification lists them. *)
Definition endpoint (c : invocation) : string * string :=
  match c with
  | Add_pet _ => ("POST", "/pet")
  | Update_pet _ => ("PUT", "/pet")
  | Find_pets_by_status _ => ("GET", "/pet/findByStatus")
  | Find_pets_by_tags _ => ("GET", "/pet/findByTags")
  | Get_pet_by_id pet_id => ("GET", "/pet/" ++ str_of_int pet_id)
  | Update_pet_with_form pet_id _ _ => ("POST", "/pet/" ++ str_of_int pet_id)
  | Delete_pet pet_id _ => ("DELETE", "/pet/" ++ str_of_int pet_id)
  | Upload_file pet_id _ _ =>
      ("POST", "/pet/" ++ str_of_int pet_id ++ "/uploadImage")
  | Get_inventory => ("GET", "/store/inventory")
  | Place_order _ => ("POST", "/store/order")
  | Get_order_by_id order_id => ("GET", "/store/order/" ++ str_of_int order_id)
  | Delete_order order_id => ("DELETE", "/store/order/" ++ str_of_int order_id)
  | Create_user _ => ("POST", "/user")
  | Create_users_with_array_input _ => ("POST", "/user/createWithArray")
  | Create_users_with_list_input _ => ("POST", "/user/createWithList")
  | Login_user _ _ => ("GET", "/user/login")
  | Logout_user => ("GET", "/user/logout")
  | Get_user_by_name username => ("GET", "/user/" ++ username)
  | Update_user username _ => ("PUT", "/user/" ++ username)
  | Delete_user username => ("DELETE", "/user/" ++ username)
  end.

Definition is_upload_file (c : invocation) : bool :=
  match c with Upload_file _ _ _ => true | _ => false end.

(** ** Requests, responses and mappings of single tools *)

(** The request of [login_user]. *)
Definition login_request (username password : string) : request :=
  Request_ "GET" (PETSTORE_API_BASE ++ "/user/login")
    (VDict [("username", VStr username); ("password", VStr password)])
    VNone default_headers 30.

(** A successful response whose body is the given text. *)
Definition ok (body : string) : response :=
  Response_ 200 "OK" (PETSTORE_API_BASE ++ "/user/login") [] body.

(** A text between double quotes. *)
Definition quoted (s : string) : string :=
  String "034" s ++ String "034" EmptyString.

(** The value of a header of a request, if it has that header. *)
Definition header_of (r : request) (name : string) : option value :=
  match req_headers r with
  | VDict d => Py.get name d
  | _ => None
  end.

(** The entry of an optional argument in a mapping: there when given. *)
Definition supplied (key : string) (arg : option string) : dict :=
  match arg with
  | Some v => [(key, VStr v)]
  | None => []
  end.

(** ** Standard output *)




(** ** Further vocabulary *)

(** The tools whose body ends in [return None], whatever the translator
    gave back. *)
Definition returns_none (c : invocation) : bool :=
  match c with
  | Update_pet_with_form _ _ _ | Delete_pet _ _ | Delete_order _
  | Create_user _ | Create_users_with_array_input _
  | Create_users_with_list_input _ | Logout_user | Update_user _ _
  | Delete_user _ => true
  | _ => false
  end.

(** What a tool does with the result of the translator. *)
Definition hand_on (c : invocation) : result value -> result value :=
  if returns_none c then discard else fun x => x.

(** A service whose address cannot even be parsed. *)
Definition unparsable : network :=
  fun _ => Failed (Exn.raise_ Exn.InvalidURL
                     "Invalid non-printable ASCII character in URL").

(** A service that answers every request with 200 and the given text. *)
Definition answering (body : string) : network :=
  fun r => Responded (Response_ 200 "OK" (req_url r) [] body).

(** * Properties *)

(** ** The JSON scanner stays within its budget *)

Module JsonFacts.
Import Json.

Lemma skip_ws_length (s : string) :
  (String.length (skip_ws s) <= String.length s)%nat.
Proof.
  induction s as [| c s IH]; cbn; [lia |].
  destruct (is_ws c); cbn; lia.
Qed.

Lemma after_prefix_length (p s r : string) :
  after_prefix p s = Some r ->
  (String.length r + String.length p = String.length s)%nat.
Proof.
  revert s. induction p as [| a p IH]; intros [| b s]; cbn; try discriminate.
  - intros [= <-]. reflexivity.
  - intros [= <-]. cbn. lia.
  - destruct (a =? b)%char; [| discriminate]. intros H. apply IH in H. lia.
Qed.

Lemma take_digits_length (s : string) :
  (String.length (snd (take_digits s)) <= String.length s)%nat.
Proof.
  induction s as [| c s IH]; cbn; [lia |].
  destruct (is_digit c); cbn; [| lia].
  destruct (take_digits s); cbn in *; lia.
Qed.

Lemma scan_integer_length (s i r : string) :
  scan_integer s = Some (i, r) -> (String.length r < String.length s)%nat.
Proof.
  destruct s as [| c s]; cbn; [discriminate |].
  destruct (c =? "0")%char.
  - intros [= _ <-]. lia.
  - destruct (is_digit c); [| discriminate].
    pose proof (take_digits_length s).
    destruct (take_digits s); cbn in *. intros [= _ <-]. lia.
Qed.

Lemma scan_fraction_length (s : string) :
  (String.length (snd (scan_fraction s)) <= String.length s)%nat.
Proof.
  unfold scan_fraction.
  destruct (after_prefix "." s) as [s' |] eqn:P; cbn; [| lia].
  apply after_prefix_length in P. cbn in P.
  pose proof (take_digits_length s').
  destruct (take_digits s') as [[| d ds] r]; cbn in *; lia.
Qed.

Lemma scan_exponent_length (s : string) :
  (String.length (snd (scan_exponent s)) <= String.length s)%nat.
Proof.
  unfold scan_exponent.
  destruct s as [| c s]; cbn; [lia |].
  destruct ((c =? "e")%char || (c =? "E")%char); cbn; [| lia].
  destruct s as [| c' t]; cbn; [lia |].
  destruct ((c' =? "-")%char || (c' =? "+")%char).
  - pose proof (take_digits_length t).
    destruct (take_digits t) as [[| d ds] r]; cbn in *; lia.
  - pose proof (take_digits_length (String c' t)).
    destruct (take_digits (String c' t)) as [[| d ds] r]; cbn in *; lia.
Qed.

Lemma scan_number_length (s r : string) (v : value) :
  scan_number s = Some (v, r) -> (String.length r < String.length s)%nat.
Proof.
  unfold scan_number.
  destruct (after_prefix "-" s) as [t |] eqn:P.
  - apply after_prefix_length in P. cbn in P.
    destruct (scan_integer t) as [[i s2] |] eqn:I; [| discriminate].
    apply scan_integer_length in I.
    pose proof (scan_fraction_length s2).
    destruct (scan_fraction s2) as [f s3]. cbn in *.
    pose proof (scan_exponent_length s3).
    destruct (scan_exponent s3) as [e s4]. cbn in *.
    destruct f, e; intros [= _ <-]; lia.
  - destruct (scan_integer s) as [[i s2] |] eqn:I; [| discriminate].
    apply scan_integer_length in I.
    pose proof (scan_fraction_length s2).
    destruct (scan_fraction s2) as [f s3]. cbn in *.
    pose proof (scan_exponent_length s3).
    destruct (scan_exponent s3) as [e s4]. cbn in *.
    destruct f, e; intros [= _ <-]; lia.
Qed.

Lemma hex4_length (s r : string) (u : Z) :
  hex4 s = Some (u, r) -> (String.length r < String.length s)%nat.
Proof.
  unfold hex4.
  destruct s as [| a [| b [| c [| d t]]]]; try discriminate.
  destruct (hex_val a), (hex_val b), (hex_val c), (hex_val d); try discriminate.
  intros [= _ <-]. cbn. lia.
Qed.

Lemma scan_unicode_length (s t r : string) :
  scan_unicode s = Some (t, r) -> (String.length r < String.length s)%nat.
Proof.
  unfold scan_unicode.
  destruct (hex4 s) as [[u r0] |] eqn:H; [| discriminate].
  apply hex4_length in H.
  destruct ((55296 <=? u)%Z && (u <=? 56319)%Z); [| intros [= _ <-]; exact H].
  destruct (after_prefix "\u" r0) as [r1 |] eqn:P; [| intros [= _ <-]; exact H].
  apply after_prefix_length in P. cbn in P.
  destruct (hex4 r1) as [[u2 r2] |] eqn:H2; [| intros [= _ <-]; exact H].
  apply hex4_length in H2.
  destruct ((56320 <=? u2)%Z && (u2 <=? 57343)%Z); intros [= _ <-]; lia.
Qed.

Lemma scan_escape_length (s t r : string) :
  scan_escape s = Some (t, r) -> (String.length r < String.length s)%nat.
Proof.
  unfold scan_escape. destruct s as [| c s]; [discriminate |].
  repeat match goal with
         | |- context [if ?b then _ else _] =>
             destruct b; [intros [= _ <-]; cbn; lia |]
         end.
  destruct (c =? "u")%char; [| discriminate].
  intros H. apply scan_unicode_length in H. cbn. lia.
Qed.

Lemma scan_string_budget (fuel : nat) :
  forall s : string,
    (String.length s < fuel)%nat ->
    scan_string fuel s <> Exhausted /\
    forall (u r : string),
      scan_string fuel s = Parsed u r -> (String.length r < String.length s)%nat.
Proof.
  induction fuel as [| fuel IH]; intros s L; [lia |].
  cbn [scan_string].
  destruct s as [| c s]; [split; [discriminate | discriminate] |].
  cbn [String.length] in L.
  destruct (c =? "034")%char.
  { split; [discriminate |]. intros u r [= _ <-]. cbn. lia. }
  destruct (c =? "\")%char.
  { destruct (scan_escape s) as [[t r'] |] eqn:E; [| split; discriminate].
    apply scan_escape_length in E.
    destruct (IH r') as [N P]; [lia |].
    destruct (scan_string fuel r') as [u r'' | |]; [| split; discriminate | contradiction].
    split; [discriminate |]. intros u0 r0 [= _ <-].
    specialize (P u r'' eq_refl). cbn. lia. }
  destruct (nat_of_ascii c <? 32)%nat; [split; discriminate |].
  destruct (IH s) as [N P]; [lia |].
  destruct (scan_string fuel s) as [u r'' | |]; [| split; discriminate | contradiction].
  split; [discriminate |]. intros u0 r0 [= _ <-].
  specialize (P u r'' eq_refl). cbn. lia.
Qed.

Ltac parsed_cases :=
  repeat match goal with
         | |- _ /\ _ => split
         | |- _ <> _ => discriminate
         | |- forall _, _ => intro
         | H : Parsed _ _ = Parsed _ _ |- _ => injection H as <- <-
         | H : Invalid = Parsed _ _ |- _ => discriminate H
         | H : Exhausted = Parsed _ _ |- _ => discriminate H
         end.

Lemma scan_budget (fuel : nat) :
  (forall s : string,
     (2 * String.length s + 1 <= fuel)%nat ->
     scan_value fuel s <> Exhausted /\
     forall v r, scan_value fuel s = Parsed v r ->
                 (String.length r < String.length s)%nat) /\
  (forall s : string,
     (2 * String.length s + 2 <= fuel)%nat ->
     scan_elements fuel s <> Exhausted /\
     forall l r, scan_elements fuel s = Parsed l r ->
                 (String.length r < String.length s)%nat) /\
  (forall (acc : dict) (s : string),
     (2 * String.length s + 2 <= fuel)%nat ->
     scan_members fuel acc s <> Exhausted /\
     forall d r, scan_members fuel acc s = Parsed d r ->
                 (String.length r < String.length s)%nat).
Proof.
  induction fuel as [| fuel [IHv [IHe IHm]]].
  { repeat split; intros; lia. }
  split; [| split].
  - intros s L. cbn [scan_value].
    destruct s as [| c r]; [parsed_cases |].
    cbn [String.length] in L.
    destruct (c =? "034")%char.
    { destruct (@scan_string_budget (String.length r + 1) r) as [N P]; [lia |].
      destruct (scan_string (String.length r + 1) r) as [t r' | |];
        [| parsed_cases | contradiction].
      specialize (P t r' eq_refl). parsed_cases. cbn. lia. }
    pose proof (skip_ws_length r) as W.
    destruct (c =? "{")%char.
    { destruct (after_prefix "}" (skip_ws r)) as [r' |] eqn:A.
      - apply after_prefix_length in A. cbn in A. parsed_cases. cbn. lia.
      - destruct (IHm [] (skip_ws r)) as [N P]; [lia |].
        destruct (scan_members fuel [] (skip_ws r)) as [d r' | |];
          [| parsed_cases | contradiction].
        specialize (P d r' eq_refl). parsed_cases. cbn. lia. }
    destruct (c =? "[")%char.
    { destruct (after_prefix "]" (skip_ws r)) as [r' |] eqn:A.
      - apply after_prefix_length in A. cbn in A. parsed_cases. cbn. lia.
      - destruct (IHe (skip_ws r)) as [N P]; [lia |].
        destruct (scan_elements fuel (skip_ws r)) as [l r' | |];
          [| parsed_cases | contradiction].
        specialize (P l r' eq_refl). parsed_cases. cbn. lia. }
    destruct (after_prefix "null" (String c r)) as [r' |] eqn:A1.
    { apply after_prefix_length in A1. cbn in A1. parsed_cases. cbn. lia. }
    destruct (after_prefix "true" (String c r)) as [r' |] eqn:A2.
    { apply after_prefix_length in A2. cbn in A2. parsed_cases. cbn. lia. }
    destruct (after_prefix "false" (String c r)) as [r' |] eqn:A3.
    { apply after_prefix_length in A3. cbn in A3. parsed_cases. cbn. lia. }
    destruct (scan_number (String c r)) as [[v r'] |] eqn:A4.
    { apply scan_number_length in A4. parsed_cases. exact A4. }
    destruct (after_prefix "NaN" (String c r)) as [r' |] eqn:A5.
    { apply after_prefix_length in A5. cbn in A5. parsed_cases. cbn. lia. }
    destruct (after_prefix "Infinity" (String c r)) as [r' |] eqn:A6.
    { apply after_prefix_length in A6. cbn in A6. parsed_cases. cbn. lia. }
    destruct (after_prefix "-Infinity" (String c r)) as [r' |] eqn:A7.
    { apply after_prefix_length in A7. cbn in A7. parsed_cases. cbn. lia. }
    parsed_cases.
  - intros s L. cbn [scan_elements].
    destruct (IHv s) as [N P]; [lia |].
    destruct (scan_value fuel s) as [v r | |]; [| parsed_cases | contradiction].
    specialize (P v r eq_refl).
    pose proof (skip_ws_length r) as W.
    destruct (after_prefix "]" (skip_ws r)) as [r' |] eqn:A.
    { apply after_prefix_length in A. cbn in A. parsed_cases. lia. }
    destruct (after_prefix "," (skip_ws r)) as [r' |] eqn:B; [| parsed_cases].
    apply after_prefix_length in B. cbn in B.
    pose proof (skip_ws_length r') as W'.
    destruct (IHe (skip_ws r')) as [N' P']; [lia |].
    destruct (scan_elements fuel (skip_ws r')) as [l r'' | |];
      [| parsed_cases | contradiction].
    specialize (P' l r'' eq_refl). parsed_cases. lia.
  - intros acc s L. cbn [scan_members].
    destruct (after_prefix (String "034" EmptyString) s) as [r |] eqn:Q;
      [| parsed_cases].
    apply after_prefix_length in Q. cbn in Q.
    destruct (@scan_string_budget (String.length r + 1) r) as [N P]; [lia |].
    destruct (scan_string (String.length r + 1) r) as [k r1 | |];
      [| parsed_cases | contradiction].
    specialize (P k r1 eq_refl).
    pose proof (skip_ws_length r1) as W1.
    destruct (after_prefix ":" (skip_ws r1)) as [r2 |] eqn:C; [| parsed_cases].
    apply after_prefix_length in C. cbn in C.
    pose proof (skip_ws_length r2) as W2.
    destruct (IHv (skip_ws r2)) as [Nv Pv]; [lia |].
    destruct (scan_value fuel (skip_ws r2)) as [v r3 | |];
      [| parsed_cases | contradiction].
    specialize (Pv v r3 eq_refl).
    pose proof (skip_ws_length r3) as W3.
    cbn zeta.
    destruct (after_prefix "}" (skip_ws r3)) as [r4 |] eqn:A.
    { apply after_prefix_length in A. cbn in A. parsed_cases. lia. }
    destruct (after_prefix "," (skip_ws r3)) as [r4 |] eqn:B; [| parsed_cases].
    apply after_prefix_length in B. cbn in B.
    pose proof (skip_ws_length r4) as W4.
    destruct (IHm (Py.set k v acc) (skip_ws r4)) as [N' P']; [lia |].
    split; [exact N' |]. intros d r5 H. specialize (P' d r5 H). lia.
Qed.

(** [loads] refuses a text for its syntax only: the scan never runs out
    of budget. *)
Lemma loads_budget (text : string) :
  scan_value (2 * String.length text + 2) (skip_ws text) <> Exhausted.
Proof.
  apply scan_budget. pose proof (skip_ws_length text). lia.
Qed.

(** What [json.loads] raises is a decoding error of one of two classes,
    neither of them under [httpx.HTTPError]. *)
Lemma loads_bytes_error (b : string) (e : Exn.t) :
  loads_bytes b = inl e ->
  (Exn.cls e = Exn.JSONDecodeError \/ Exn.cls e = Exn.UnicodeDecodeError) /\
  Exn.isinstance e Exn.HTTPError = false.
Proof.
  unfold loads_bytes.
  destruct (decode (detect_encoding b) b) as [text |].
  - destruct (loads text); [discriminate |]. intros [= <-]. split; [left |]; reflexivity.
  - intros [= <-]. split; [right |]; reflexivity.
Qed.

(** A byte order mark is taken off before the text is parsed, UTF-16 is
    recognised by its zero bytes, and a byte that is not UTF-8 is a
    [UnicodeDecodeError]. *)
Example loads_bytes_samples :
  loads_bytes (bytes3 "239" "187" "191" ++ "{}") = inr (VDict []) /\
  loads_bytes (bytes4 "[" "000" "]" "000") = inr (VList []) /\
  option_map Exn.cls
    (match loads_bytes (bytes3 "034" "255" "034") with
     | inl e => Some e
     | inr _ => None
     end) = Some Exn.UnicodeDecodeError.
Proof. repeat split; vm_compute; reflexivity. Qed.

End JsonFacts.

(** ** Runs of the translator *)

Lemma run_bind (A B : Type) (net : network) (m : Coro A) (f : A -> Coro B) :
  run net (bind m f) =
  match run net m with
  | (t, Returned a) => let (t', y) := run net (f a) in ((t ++ t')%list, y)
  | (t, Raised e) => (t, Raised e)
  end.
Proof.
  induction m as [a | e | s k IH | r k IH]; cbn.
  - destruct (run net (f a)); reflexivity.
  - reflexivity.
  - rewrite IH. destruct (run net k) as [t [a | e]]; cbn.
    + destruct (run net (f a)); reflexivity.
    + reflexivity.
  - rewrite IH. destruct (run net (k (net r))) as [t [a | e]]; cbn.
    + destruct (run net (f a)); reflexivity.
    + reflexivity.
Qed.

Lemma run_fetch_from_petstore (net : network) (method path : string)
  (params json headers : value) :
  run net (fetch_from_petstore method path params json headers) =
  let r := fetch_request method path params json headers in
  (Exchange r (net r) :: map Printed (fst (settle (net r))),
   snd (settle (net r))).
Proof.
  unfold fetch_from_petstore, fetch_request, default_headers,
    Httpx.client_request.
  cbn [bind try_except run].
  set (r := Request_ _ _ _ _ _ _).
  destruct (net r) as [resp | e]; cbn [bind try_except run settle fst snd map].
  - unfold Httpx.raise_for_status.
    destruct (Httpx.is_success resp); cbn [bind try_except run].
    + destruct (status_code resp =? 204); cbn [try_except run]; [reflexivity |].
      unfold Httpx.json.
      destruct (Json.loads_bytes (content resp)) as [e | v] eqn:L;
        cbn [try_except run]; [| reflexivity].
      apply JsonFacts.loads_bytes_error in L. destruct L as [_ L].
      rewrite L. reflexivity.
    + reflexivity.
  - destruct (Exn.isinstance e Exn.HTTPError); reflexivity.
Qed.

(** *** The call sites *)

Lemma call_no_keyword (method path : string) :
  call_fetch_from_petstore method path [] =
  fetch_from_petstore method path VNone VNone VNone.
Proof. reflexivity. Qed.

Lemma call_json (method path : string) (body : value) :
  call_fetch_from_petstore method path [("json", body)] =
  fetch_from_petstore method path VNone body VNone.
Proof. reflexivity. Qed.

Lemma call_params (method path : string) (params : value) :
  call_fetch_from_petstore method path [("params", params)] =
  fetch_from_petstore method path params VNone VNone.
Proof. reflexivity. Qed.

Lemma call_headers (method path : string) (headers : value) :
  call_fetch_from_petstore method path [("headers", headers)] =
  fetch_from_petstore method path VNone VNone headers.
Proof. reflexivity. Qed.

Lemma call_params_files (method path : string) (params files : value) :
  call_fetch_from_petstore method path [("params", params); ("files", files)] =
  Raise unexpected_files.
Proof. reflexivity. Qed.

Lemma first_request_fetch (B : Type) (method path : string)
  (params json headers : value) (f : value -> Coro B) :
  first_request (bind (fetch_from_petstore method path params json headers) f) =
  Some (fetch_request method path params json headers).
Proof. reflexivity. Qed.

Lemma run_fetch_return (net : network) (method path : string)
  (params json headers : value) :
  run net (x <- fetch_from_petstore method path params json headers ;; Ret x) =
  exchanged net (fetch_request method path params json headers) (fun x => x).
Proof.
  rewrite run_bind, run_fetch_from_petstore. unfold exchanged. cbn zeta.
  destruct (snd (settle _)) as [v | e]; cbn [run].
  - rewrite app_nil_r. reflexivity.
  - reflexivity.
Qed.

Lemma run_fetch_discard (net : network) (method path : string)
  (params json headers : value) :
  run net (fetch_from_petstore method path params json headers ;; Ret VNone) =
  exchanged net (fetch_request method path params json headers) discard.
Proof.
  rewrite run_bind, run_fetch_from_petstore. unfold exchanged. cbn zeta.
  destruct (snd (settle _)) as [v | e]; cbn [run discard].
  - rewrite app_nil_r. reflexivity.
  - reflexivity.
Qed.

Ltac call_site :=
  cbv [invoke add_pet update_pet find_pets_by_status find_pets_by_tags
       get_pet_by_id update_pet_with_form delete_pet upload_file
       get_inventory place_order get_order_by_id delete_order create_user
       create_users_with_array_input create_users_with_list_input
       login_user logout_user get_user_by_name update_user delete_user];
  rewrite ?call_no_keyword, ?call_json, ?call_params, ?call_headers,
    ?call_params_files.

Lemma invoke_shape (net : network) (c : invocation) : shape net c.
Proof.
  destruct c;
    try (eapply shape_exchange;
         [ call_site; apply first_request_fetch
         | call_site; first [ apply run_fetch_return | apply run_fetch_discard ]
         | auto ]).
  apply shape_call_fails; call_site; reflexivity.
Qed.

Lemma sent_by_translator (c : invocation) (r : request) :
  first_request (invoke c) = Some r ->
  exists method path params json headers,
    r = fetch_request method path params json headers.
Proof.
  destruct c; call_site; try discriminate;
    rewrite first_request_fetch; intros [= <-]; repeat eexists.
Qed.

Lemma exchange_inv (net : network) (c : invocation) (r : request) (o : outcome) :
  In (Exchange r o) (trace net (invoke c)) ->
  first_request (invoke c) = Some r /\ o = net r /\
  exists post, run net (invoke c) = exchanged net r post /\
               (post = (fun x => x) \/ post = discard).
Proof.
  unfold trace.
  destruct (invoke_shape net c) as [_ E | r0 post F E P]; rewrite E; cbn.
  - intros [].
  - intros [[= <- <-] | H].
    + eauto.
    + apply in_map_iff in H. destruct H as [s [[=] _]].
Qed.

Lemma first_request_run (net : network) (c : invocation) (r : request) :
  first_request (invoke c) = Some r ->
  exists post, run net (invoke c) = exchanged net r post /\
               (post = (fun x => x) \/ post = discard).
Proof.
  intros F. destruct (invoke_shape net c) as [F' _ | r0 post F' E P].
  - congruence.
  - assert (r0 = r) by congruence. subst. eauto.
Qed.

Lemma printed_exchanged (net : network) (r : request)
  (post : result value -> result value) :
  printed (fst (exchanged net r post)) = fst (settle (net r)).
Proof.
  unfold exchanged, printed. cbn.
  induction (fst (settle (net r))) as [| s l IH]; cbn; congruence.
Qed.

Lemma post_none (post : result value -> result value) :
  post = (fun x => x) \/ post = discard ->
  post (Returned VNone) = Returned VNone.
Proof. intros [-> | ->]; reflexivity. Qed.

(** *** The exception hierarchy *)

Lemma timeout_is_transport_error (e : Exn.t) :
  Exn.isinstance e Exn.TimeoutException = true ->
  Exn.isinstance e Exn.TransportError = true.
Proof. destruct e as [[] msg]; cbn; congruence. Qed.

Lemma transport_error_is_caught (e : Exn.t) :
  Exn.isinstance e Exn.TransportError = true ->
  Exn.isinstance e Exn.HTTPError = true.
Proof. destruct e as [[] msg]; cbn; congruence. Qed.

Lemma settle_no_content (resp : response) :
  status_code resp = 204 -> settle (Responded resp) = ([], Returned VNone).
Proof.
  intros H. unfold settle, Httpx.is_success. rewrite H. reflexivity.
Qed.

Lemma settle_caught (e : Exn.t) :
  Exn.isinstance e Exn.HTTPError = true ->
  settle (Failed e) = (["HTTP request failed: " ++ Exn.message e], Returned VNone).
Proof. intros H. unfold settle. rewrite H. reflexivity. Qed.

Lemma settle_error_status (resp : response) :
  status_code resp < 200 \/ 299 < status_code resp ->
  settle (Responded resp) =
  (["HTTP request failed: " ++ Httpx.status_message resp], Returned VNone).
Proof.
  intros H. unfold settle, Httpx.is_success.
  replace ((200 <=? status_code resp) && (status_code resp <=? 299)) with false.
  - reflexivity.
  - symmetry. apply andb_false_iff. rewrite !Z.leb_gt. lia.
Qed.

(** ** The failure policy *)

Lemma settle_failure (o : outcome) (e : Exn.t) :
  failure o e ->
  settle o = (["HTTP request failed: " ++ Exn.message e], Returned VNone).
Proof.
  intros [e' H | e' H | resp H].
  - apply settle_caught, transport_error_is_caught, H.
  - apply settle_caught, transport_error_is_caught,
      timeout_is_transport_error, H.
  - apply settle_error_status, H.
Qed.

Lemma failure_outcome
  (net : network) (c : invocation) (r : request) (o : outcome) (e : Exn.t) :
  In (Exchange r o) (trace net (invoke c)) ->
  failure o e ->
  outcome_of net (invoke c) = Returned VNone.
Proof.
  intros I F.
  apply exchange_inv in I. destruct I as [_ [-> [post [E P]]]].
  apply settle_failure in F.
  unfold outcome_of. rewrite E. unfold exchanged. cbn [snd].
  rewrite F. apply post_none, P.
Qed.

(** C1.  Whatever the tool, when the exchange of an invocation meets a
    transport error, a timeout or a status outside 2xx, the invocation
    returns [None] to its caller (it does not raise), prints one line
    made of the text [HTTP request failed: ] and the detail of the error,
    and ends exactly as it does when the same request is answered by a
    204 response: the caller cannot tell the two apart. *)
Theorem failed_exchange_returns_none
  (net : network) (c : invocation) (r : request) (o : outcome) (e : Exn.t) :
  In (Exchange r o) (trace net (invoke c)) ->
  failure o e ->
  outcome_of net (invoke c) = Returned VNone /\
  printed (trace net (invoke c)) = ["HTTP request failed: " ++ Exn.message e] /\
  forall (net' : network) (resp : response),
    net' r = Responded resp -> status_code resp = 204 ->
    outcome_of net' (invoke c) = outcome_of net (invoke c).
Proof.
  intros I F.
  assert (O : outcome_of net (invoke c) = Returned VNone)
    by (eapply failure_outcome; eassumption).
  apply exchange_inv in I. destruct I as [R [-> [post [E P]]]].
  apply settle_failure in F.
  split; [exact O |]. split.
  - unfold trace. rewrite E, printed_exchanged, F. reflexivity.
  - intros net' resp A S. rewrite O.
    destruct (first_request_run net' c R) as [post' [E' P']].
    unfold outcome_of. rewrite E'. unfold exchanged. cbn [snd].
    rewrite A, (settle_no_content resp S). apply post_none, P'.
Qed.

Lemma failed_exchange_returns_none_witness :
  outcome_of refusing (invoke (Get_pet_by_id 7)) = Returned VNone /\
  printed (trace refusing (invoke (Get_pet_by_id 7))) =
    ["HTTP request failed: All connection attempts failed"].
Proof.
  destruct (@failed_exchange_returns_none refusing (Get_pet_by_id 7)
              (fetch_request "GET" "/pet/7" VNone VNone VNone)
              (Failed (Exn.raise_ Exn.ConnectError "All connection attempts failed"))
              (Exn.raise_ Exn.ConnectError "All connection attempts failed"))
    as [O [P _]].
  - vm_compute. left. reflexivity.
  - apply failure_transport. reflexivity.
  - split; [exact O | exact P].
Defined.

(** ** No content *)

(** C4.  Whatever the tool, when the response to the request of an
    invocation has status 204, the invocation is that one exchange and
    nothing more, and it returns [None]; the body of the response plays
    no part, so it is not parsed. *)
Theorem no_content_returns_none
  (net : network) (c : invocation) (r : request) (resp : response) :
  In (Exchange r (Responded resp)) (trace net (invoke c)) ->
  status_code resp = 204 ->
  run net (invoke c) = ([Exchange r (Responded resp)], Returned VNone).
Proof.
  intros I S.
  apply exchange_inv in I. destruct I as [_ [N [post [E P]]]].
  rewrite E. unfold exchanged. rewrite <- N, (settle_no_content resp S).
  cbn [fst snd map]. rewrite (post_none P). reflexivity.
Qed.

Lemma no_content_returns_none_witness :
  Json.loads (content no_content) = None /\
  run (fun _ => Responded no_content) (invoke Get_inventory) =
  ([Exchange (fetch_request "GET" "/store/inventory" VNone VNone VNone)
      (Responded no_content)], Returned VNone).
Proof.
  split; [vm_compute; reflexivity |].
  apply (@no_content_returns_none (fun _ => Responded no_content) Get_inventory).
  - vm_compute. left. reflexivity.
  - reflexivity.
Defined.

(** ** The timeout *)

(** C8.  Every request an invocation sends carries the timeout 30, and
    when the request ends in a timeout exception the invocation returns
    [None], as for any other failure of the transport. *)
Theorem requests_carry_timeout
  (net : network) (c : invocation) (r : request) (o : outcome) :
  In (Exchange r o) (trace net (invoke c)) ->
  req_timeout r = 30%Q /\
  forall e : Exn.t,
    o = Failed e -> Exn.isinstance e Exn.TimeoutException = true ->
    outcome_of net (invoke c) = Returned VNone.
Proof.
  intros I. split.
  - apply exchange_inv in I. destruct I as [R _].
    apply sent_by_translator in R.
    destruct R as [method [path [params [json [headers ->]]]]]. reflexivity.
  - intros e -> T.
    eapply failure_outcome; [exact I | apply failure_timeout, T].
Qed.

Lemma requests_carry_timeout_witness :
  req_timeout (fetch_request "GET" "/user/logout" VNone VNone VNone) = 30%Q /\
  outcome_of stalling (invoke Logout_user) = Returned VNone.
Proof.
  destruct (@requests_carry_timeout stalling Logout_user
              (fetch_request "GET" "/user/logout" VNone VNone VNone)
              (Failed (Exn.raise_ Exn.ReadTimeout "The read operation timed out")))
    as [Q H].
  - vm_compute. left. reflexivity.
  - split; [exact Q |]. apply (H _ eq_refl). reflexivity.
Defined.

(** ** One request per invocation *)

Lemma requests_exchanged (net : network) (r : request)
  (post : result value -> result value) :
  requests (fst (exchanged net r post)) = [r].
Proof.
  unfold exchanged, requests. cbn. f_equal.
  induction (fst (settle (net r))) as [| s l IH]; cbn; congruence.
Qed.

(** Every tool but [upload_file] sends exactly one request, with the
    method and the path of the table. *)
Lemma one_request_as_tabled (net : network) (c : invocation) :
  is_upload_file c = false ->
  exists r, requests (trace net (invoke c)) = [r] /\
            req_method r = fst (endpoint c) /\
            req_url r = PETSTORE_API_BASE ++ snd (endpoint c).
Proof.
  intros U. unfold trace.
  destruct (invoke_shape net c) as [F _ | r post F E _].
  - destruct c; try discriminate U; revert F; call_site;
      rewrite first_request_fetch; discriminate.
  - exists r. rewrite E, requests_exchanged. split; [reflexivity |].
    clear E.
    destruct c; try discriminate U; revert F; call_site;
      rewrite first_request_fetch; intros [= <-]; split; reflexivity.
Qed.

(** The two list arguments go out comma-joined, as one query parameter. *)
Lemma find_pets_by_status_request (net : network) (status : list string) :
  requests (trace net (find_pets_by_status status)) =
  [Request_ "GET" (PETSTORE_API_BASE ++ "/pet/findByStatus")
     (VDict [("status", VStr (join "," status))]) VNone default_headers 30].
Proof.
  unfold trace. call_site. rewrite run_fetch_return, requests_exchanged.
  reflexivity.
Qed.

Lemma find_pets_by_tags_request (net : network) (tags : list string) :
  requests (trace net (find_pets_by_tags tags)) =
  [Request_ "GET" (PETSTORE_API_BASE ++ "/pet/findByTags")
     (VDict [("tags", VStr (join "," tags))]) VNone default_headers 30].
Proof.
  unfold trace. call_site. rewrite run_fetch_return, requests_exchanged.
  reflexivity.
Qed.

Example find_available_sold (net : network) :
  map req_params (requests (trace net (find_pets_by_status ["available"; "sold"]))) =
  [VDict [("status", VStr "available,sold")]].
Proof. rewrite find_pets_by_status_request. reflexivity. Qed.

(** ** [upload_file] *)

(** C2.  [upload_file] passes the keyword [files] to the translator,
    which has no such parameter: whatever its arguments and whatever the
    network would answer, the invocation raises a [TypeError] out of the
    call, and nothing has been sent or printed by then. *)
Theorem upload_file_raises
  (net : network) (pet_id : Z) (additional_metadata file : option string) :
  run net (upload_file pet_id additional_metadata file) =
  ([], Raised (Exn.raise_ Exn.TypeError
                 "fetch_from_petstore() got an unexpected keyword argument 'files'")).
Proof. unfold upload_file. rewrite call_params_files. reflexivity. Qed.

(** C3.  An invocation of the registered tool [upload_file] sends no
    request at all, where the table has one POST. *)
Theorem upload_file_sends_nothing
  (net : network) (pet_id : Z) (additional_metadata file : option string) :
  requests (trace net (invoke (Upload_file pet_id additional_metadata file))) = [] /\
  fst (endpoint (Upload_file pet_id additional_metadata file)) = "POST".
Proof.
  unfold trace. cbn [invoke]. unfold upload_file.
  rewrite call_params_files. split; reflexivity.
Qed.

(** ** [login_user] *)

Lemma login_user_run (net : network) (username password : string) :
  run net (login_user username password) =
  exchanged net (login_request username password) (fun x => x).
Proof. call_site. apply run_fetch_return. Qed.

(** C5.  [login_user] sends one GET to [/user/login] with the user name
    and the password as query parameters; when the answer is a 200
    response whose body is the bare text [abc123], the body is given to
    the JSON parser, which refuses it, and the invocation raises a
    [JSONDecodeError] that the translator does not catch. *)
Theorem login_user_bare_token_raises :
  run (fun _ => Responded (ok "abc123")) (login_user "alice" "secret") =
  ([Exchange (login_request "alice" "secret") (Responded (ok "abc123"))],
   Raised (Exn.raise_ Exn.JSONDecodeError "Expecting value")) /\
  Exn.isinstance (Exn.raise_ Exn.JSONDecodeError "Expecting value")
    Exn.HTTPError = false.
Proof.
  rewrite login_user_run. split; vm_compute; reflexivity.
Qed.

(** The token comes back only when the body is a JSON string, that is,
    the token between double quotes. *)
Lemma login_user_quoted_token :
  outcome_of (fun _ => Responded (ok (quoted "abc123")))
    (login_user "alice" "secret") = Returned (VStr "abc123").
Proof. unfold outcome_of. rewrite login_user_run. vm_compute. reflexivity. Qed.

(** ** [delete_pet] *)

Lemma delete_pet_run (net : network) (pet_id : Z) (api_key : option string) :
  run net (delete_pet pet_id api_key) =
  exchanged net
    (fetch_request "DELETE" ("/pet/" ++ str_of_int pet_id) VNone VNone
       (if truthy (of_opt_str api_key)
        then VDict [("api_key", of_opt_str api_key)] else VDict []))
    discard.
Proof. call_site. apply run_fetch_discard. Qed.

(** C6, as stated, fails.  With the empty string as [api_key], an
    argument is given and the request has no [api_key] header: it has
    the two default headers. *)
Lemma delete_pet_empty_api_key :
  requests (trace refusing (delete_pet 1 (Some ""))) =
  [Request_ "DELETE" "https://petstore3.swagger.io/api/v3/pet/1" VNone VNone
     (VDict [("User-Agent", VStr "petstore-mcp-agent/1.0");
             ("Content-Type", VStr "application/json")]) 30] /\
  map (fun r => header_of r "api_key")
    (requests (trace refusing (delete_pet 1 (Some "")))) = [None].
Proof.
  unfold trace. rewrite delete_pet_run, requests_exchanged.
  split; reflexivity.
Qed.

(** C6, amended.  [delete_pet] sends one DELETE to [/pet/{petId}]; the
    request has a header [api_key] exactly when the argument is given
    and is not the empty string, and its value is then the argument. *)
Theorem delete_pet_api_key_header
  (net : network) (pet_id : Z) (api_key : option string) :
  exists r : request,
    requests (trace net (delete_pet pet_id api_key)) = [r] /\
    req_method r = "DELETE" /\
    req_url r = PETSTORE_API_BASE ++ "/pet/" ++ str_of_int pet_id /\
    header_of r "api_key" =
      match api_key with
      | Some key => if (key =? "")%string then None else Some (VStr key)
      | None => None
      end.
Proof.
  eexists. unfold trace. rewrite delete_pet_run, requests_exchanged.
  split; [reflexivity |]. split; [reflexivity |]. split; [reflexivity |].
  destruct api_key as [key |]; [| reflexivity].
  cbn [of_opt_str truthy]. destruct (key =? "")%string; reflexivity.
Qed.

(** ** [update_pet_with_form] *)

(** C7.  Whatever the combination of given and omitted optional
    arguments, [update_pet_with_form] sends one POST to [/pet/{petId}]
    whose query parameters hold [name] when it is given and [status]
    when it is given, each with its argument, and no other key. *)
Theorem update_pet_with_form_params
  (net : network) (pet_id : Z) (name status : option string) :
  requests (trace net (update_pet_with_form pet_id name status)) =
  [Request_ "POST" (PETSTORE_API_BASE ++ "/pet/" ++ str_of_int pet_id)
     (VDict (supplied "name" name ++ supplied "status" status)%list)
     VNone default_headers 30] /\
  forall k : string,
    In k (keys (supplied "name" name ++ supplied "status" status)%list) <->
    (k = "name" /\ name <> None) \/ (k = "status" /\ status <> None).
Proof.
  split.
  - unfold trace. call_site. rewrite run_fetch_discard, requests_exchanged.
    destruct name, status; reflexivity.
  - intros k. destruct name, status; cbn; split;
      intuition (try congruence; try discriminate).
Qed.

(** ** Default headers *)

Lemma requests_fetch (net : network) (method path : string)
  (params json headers : value) :
  requests (trace net (fetch_from_petstore method path params json headers)) =
  [fetch_request method path params json headers].
Proof.
  unfold trace. rewrite run_fetch_from_petstore. cbn [fst].
  apply (requests_exchanged net _ (fun x => x)).
Qed.

Lemma delete_pet_requests (net : network) (pet_id : Z) (api_key : option string) :
  requests (trace net (delete_pet pet_id api_key)) =
  [fetch_request "DELETE" ("/pet/" ++ str_of_int pet_id) VNone VNone
     (if truthy (of_opt_str api_key)
      then VDict [("api_key", of_opt_str api_key)] else VDict [])].
Proof. unfold trace. rewrite delete_pet_run. apply requests_exchanged. Qed.

(** C10.  The translator sends the two default headers when the headers
    it is given are an empty mapping, as it does when it is given none;
    [delete_pet] without [api_key] hands it an empty mapping, so its
    DELETE carries [User-Agent] and [Content-Type]. *)
Theorem empty_headers_get_defaults
  (net : network) (method path : string) (params json : value) (pet_id : Z) :
  requests (trace net (fetch_from_petstore method path params json (VDict []))) =
  [Request_ method (PETSTORE_API_BASE ++ path) params json
     (VDict [("User-Agent", VStr USER_AGENT);
             ("Content-Type", VStr "application/json")]) 30] /\
  requests (trace net (fetch_from_petstore method path params json (VDict []))) =
  requests (trace net (fetch_from_petstore method path params json VNone)) /\
  delete_pet pet_id None =
  (call_fetch_from_petstore "DELETE" ("/pet/" ++ str_of_int pet_id)
     [("headers", VDict [])] ;; Ret VNone) /\
  requests (trace net (delete_pet pet_id None)) =
  [Request_ "DELETE" (PETSTORE_API_BASE ++ "/pet/" ++ str_of_int pet_id)
     VNone VNone
     (VDict [("User-Agent", VStr USER_AGENT);
             ("Content-Type", VStr "application/json")]) 30].
Proof.
  rewrite !requests_fetch, delete_pet_requests. repeat split.
Qed.

(** ** Invocations side by side *)

Lemma settle_prints_at_most_once (o : outcome) :
  (length (fst (settle o)) <= 1)%nat.
Proof.
  unfold settle. destruct o as [resp | e].
  - destruct (Httpx.is_success resp); [| cbn; lia].
    destruct (status_code resp =? 204); [cbn; lia |].
    destruct (Json.loads_bytes (content resp)); cbn; lia.
  - destruct (Exn.isinstance e Exn.HTTPError); cbn; lia.
Qed.






(** * Further properties of the translator and the tools *)

Lemma invoke_run (net : network) (c : invocation) (r : request) :
  first_request (invoke c) = Some r ->
  run net (invoke c) = exchanged net r (hand_on c).
Proof.
  destruct c; call_site; try discriminate;
    rewrite first_request_fetch; intros [= <-];
    first [ apply run_fetch_return | apply run_fetch_discard ].
Qed.

Lemma exchange_run (net : network) (c : invocation) (r : request) (o : outcome) :
  In (Exchange r o) (trace net (invoke c)) ->
  o = net r /\ run net (invoke c) = exchanged net r (hand_on c).
Proof.
  intros I. apply exchange_inv in I. destruct I as [F [N _]].
  split; [exact N | apply invoke_run, F].
Qed.

Lemma hand_on_raised (c : invocation) (e : Exn.t) :
  hand_on c (Raised e) = Raised e.
Proof. unfold hand_on. destruct (returns_none c); reflexivity. Qed.

Lemma settle_success (resp : response) :
  200 <= status_code resp <= 299 -> status_code resp <> 204 ->
  settle (Responded resp) =
  ([], match Json.loads_bytes (content resp) with
       | inr v => Returned v
       | inl e => Raised e
       end).
Proof.
  intros S N. unfold settle, Httpx.is_success.
  replace ((200 <=? status_code resp) && (status_code resp <=? 299)) with true
    by (symmetry; apply andb_true_iff; rewrite !Z.leb_le; lia).
  replace (status_code resp =? 204) with false
    by (symmetry; apply Z.eqb_neq; exact N).
  destruct (Json.loads_bytes (content resp)); reflexivity.
Qed.

(** ** Exceptions the translator does not catch *)

(** X1.  Whatever the tool, when its request raises an exception that is
    not an [httpx.HTTPError], the translator does not catch it: the
    invocation raises that very exception to its caller and prints
    nothing. *)
Theorem other_exceptions_propagate
  (net : network) (c : invocation) (r : request) (e : Exn.t) :
  In (Exchange r (Failed e)) (trace net (invoke c)) ->
  Exn.isinstance e Exn.HTTPError = false ->
  run net (invoke c) = ([Exchange r (Failed e)], Raised e).
Proof.
  intros I H. apply exchange_run in I. destruct I as [N E].
  rewrite E. unfold exchanged. rewrite <- N. cbn [settle]. rewrite H.
  cbn [fst snd map]. rewrite hand_on_raised. reflexivity.
Qed.

Lemma other_exceptions_propagate_witness :
  run unparsable (invoke (Delete_user "ann")) =
  ([Exchange (fetch_request "DELETE" "/user/ann" VNone VNone VNone)
      (Failed (Exn.raise_ Exn.InvalidURL
                 "Invalid non-printable ASCII character in URL"))],
   Raised (Exn.raise_ Exn.InvalidURL
             "Invalid non-printable ASCII character in URL")).
Proof.
  apply (@other_exceptions_propagate unparsable (Delete_user "ann")).
  - vm_compute. left. reflexivity.
  - reflexivity.
Defined.

(** ** Successful responses *)

(** X2.  A tool that returns what the translator gave back returns, on a
    2xx response other than 204, exactly what [response.json()] makes of
    the body, when it makes a value of it: the bytes decoded in the
    encoding they show, then parsed as one JSON document.  Nothing is
    printed. *)
Theorem success_returns_parsed_body
  (net : network) (c : invocation) (r : request) (resp : response) (v : value) :
  returns_none c = false ->
  In (Exchange r (Responded resp)) (trace net (invoke c)) ->
  200 <= status_code resp <= 299 -> status_code resp <> 204 ->
  Json.loads_bytes (content resp) = inr v ->
  run net (invoke c) = ([Exchange r (Responded resp)], Returned v).
Proof.
  intros V I S N L. apply exchange_run in I. destruct I as [O E].
  rewrite E. unfold exchanged, hand_on. rewrite V, <- O, (settle_success resp S N), L.
  reflexivity.
Qed.

Lemma success_returns_parsed_body_witness :
  run (answering "[1, 2]") (invoke (Find_pets_by_tags ["cat"])) =
  ([Exchange
      (fetch_request "GET" "/pet/findByTags" (VDict [("tags", VStr "cat")])
         VNone VNone)
      (Responded (Response_ 200 "OK" (PETSTORE_API_BASE ++ "/pet/findByTags")
                    [] "[1, 2]"))],
   Returned (VList [VInt 1; VInt 2])).
Proof.
  apply (@success_returns_parsed_body (answering "[1, 2]")
           (Find_pets_by_tags ["cat"])).
  - reflexivity.
  - vm_compute. left. reflexivity.
  - cbn. lia.
  - cbn. lia.
  - vm_compute. reflexivity.
Defined.

(** X3.  A tool whose body ends in [return None] never hands data to its
    caller: whatever the network does, if the invocation returns, it
    returns [None]. *)
Theorem none_tools_return_none
  (net : network) (c : invocation) (v : value) :
  returns_none c = true ->
  outcome_of net (invoke c) = Returned v ->
  v = VNone.
Proof.
  intros V. unfold outcome_of.
  destruct (first_request (invoke c)) as [r |] eqn:F.
  - rewrite (invoke_run net c F). unfold exchanged, hand_on. rewrite V.
    cbn [snd]. destruct (snd (settle (net r))); cbn [discard]; congruence.
  - destruct c; try discriminate V; revert F; call_site;
      rewrite first_request_fetch; discriminate.
Qed.

Lemma none_tools_return_none_witness :
  outcome_of (answering "{}") (invoke (Create_user (VDict []))) = Returned VNone.
Proof.
  assert (H : exists v, outcome_of (answering "{}") (invoke (Create_user (VDict [])))
                        = Returned v)
    by (eexists; vm_compute; reflexivity).
  destruct H as [v H].
  rewrite H. f_equal.
  exact (@none_tools_return_none (answering "{}") (Create_user (VDict [])) v
           eq_refl H).
Defined.

(** X4.  Whatever the tool, also one that would return [None] anyway,
    when [response.json()] raises on a 2xx response other than 204 (the
    body is empty, is plain text, or is not in the encoding it shows),
    the invocation raises that exception, a [JSONDecodeError] or a
    [UnicodeDecodeError]: it is not caught, and nothing is printed. *)
Theorem undecodable_body_raises
  (net : network) (c : invocation) (r : request) (resp : response) (e : Exn.t) :
  In (Exchange r (Responded resp)) (trace net (invoke c)) ->
  200 <= status_code resp <= 299 -> status_code resp <> 204 ->
  Json.loads_bytes (content resp) = inl e ->
  run net (invoke c) = ([Exchange r (Responded resp)], Raised e) /\
  (Exn.cls e = Exn.JSONDecodeError \/ Exn.cls e = Exn.UnicodeDecodeError).
Proof.
  intros I S N L. apply exchange_run in I. destruct I as [O E].
  split; [| apply (JsonFacts.loads_bytes_error _ L)].
  rewrite E. unfold exchanged. rewrite <- O, (settle_success resp S N), L.
  cbn [fst snd map]. rewrite hand_on_raised. reflexivity.
Qed.

Lemma undecodable_body_raises_witness :
  exists e : Exn.t,
    outcome_of (answering "Pet deleted") (invoke (Delete_pet 1 None)) = Raised e /\
    Exn.cls e = Exn.JSONDecodeError.
Proof.
  destruct (@undecodable_body_raises (answering "Pet deleted") (Delete_pet 1 None)
              (fetch_request "DELETE" "/pet/1" VNone VNone (VDict []))
              (Response_ 200 "OK" (PETSTORE_API_BASE ++ "/pet/1") [] "Pet deleted")
              (Exn.raise_ Exn.JSONDecodeError "Expecting value"))
    as [R _].
  - vm_compute. left. reflexivity.
  - cbn. lia.
  - cbn. lia.
  - vm_compute. reflexivity.
  - eexists. unfold outcome_of. rewrite R. split; reflexivity.
Defined.

(** ** What an invocation never does *)

(** X5.  No retry and no second message: whatever the tool and whatever
    the network does, one invocation sends at most one request and calls
    [print] at most once. *)
Theorem at_most_one_request_and_message (net : network) (c : invocation) :
  (length (requests (trace net (invoke c))) <= 1)%nat /\
  (length (printed (trace net (invoke c))) <= 1)%nat.
Proof.
  unfold trace.
  destruct (invoke_shape net c) as [_ E | r post _ E _]; rewrite E.
  - cbn. lia.
  - rewrite requests_exchanged, printed_exchanged.
    pose proof (settle_prints_at_most_once (net r)). cbn. lia.
Qed.

Lemma settle_printed (o : outcome) (text : string) :
  In text (fst (settle o)) ->
  snd (settle o) = Returned VNone /\
  exists detail : string, text = "HTTP request failed: " ++ detail.
Proof.
  unfold settle. destruct o as [resp | e].
  - destruct (Httpx.is_success resp).
    + destruct (status_code resp =? 204); [intros [] |].
      destruct (Json.loads_bytes (content resp)); intros [].
    + intros [<- | []]. split; [reflexivity | eexists; reflexivity].
  - destruct (Exn.isinstance e Exn.HTTPError).
    + intros [<- | []]. split; [reflexivity | eexists; reflexivity].
    + intros [].
Qed.

(** X6.  [print] is called only for a caught failure: whenever an
    invocation prints, the text it gives to [print] begins with
    [HTTP request failed: ] and the invocation returns [None]; an
    invocation that returns data or raises has printed nothing. *)
Theorem printed_text_means_none
  (net : network) (c : invocation) (text : string) :
  In text (printed (trace net (invoke c))) ->
  outcome_of net (invoke c) = Returned VNone /\
  exists detail : string, text = "HTTP request failed: " ++ detail.
Proof.
  unfold trace, outcome_of.
  destruct (invoke_shape net c) as [_ E | r post _ E P]; rewrite E.
  - intros [].
  - rewrite printed_exchanged. intros I.
    apply settle_printed in I. destruct I as [S D].
    split; [| exact D].
    unfold exchanged. cbn [snd]. rewrite S. apply post_none, P.
Qed.

Lemma printed_text_means_none_witness :
  outcome_of stalling (invoke Get_inventory) = Returned VNone /\
  exists detail : string,
    "HTTP request failed: The read operation timed out" =
    "HTTP request failed: " ++ detail.
Proof.
  apply (@printed_text_means_none stalling Get_inventory).
  vm_compute. left. reflexivity.
Defined.

(** ** Headers *)

(** X7.  Headers given by the caller replace the default ones, they are
    not merged with them: when the translator is called with headers
    that are neither [None] nor empty, the request carries exactly those
    headers. *)
Theorem given_headers_replace_defaults
  (net : network) (method path : string) (params json headers : value) :
  truthy headers = true ->
  requests (trace net (fetch_from_petstore method path params json headers)) =
  [Request_ method (PETSTORE_API_BASE ++ path) params json headers 30].
Proof.
  intros T. rewrite requests_fetch. unfold fetch_request. rewrite T. reflexivity.
Qed.

Lemma given_headers_replace_defaults_witness :
  map (fun r => (header_of r "X-Trace", header_of r "User-Agent"))
    (requests (trace refusing
       (fetch_from_petstore "GET" "/pet/1" VNone VNone
          (VDict [("X-Trace", VStr "1")])))) =
  [(Some (VStr "1"), None)].
Proof.
  rewrite (@given_headers_replace_defaults refusing "GET" "/pet/1" VNone VNone
             (VDict [("X-Trace", VStr "1")]) eq_refl).
  reflexivity.
Defined.

(** X8.  The headers a tool hands to the client for its request are
    exactly the two defaults of the translator, with one exception:
    [delete_pet] called with an [api_key] that is not empty hands over
    the one header [api_key] with that key, and neither default. *)
Theorem headers_of_every_request
  (net : network) (c : invocation) (r : request) :
  In r (requests (trace net (invoke c))) ->
  req_headers r =
  match c with
  | Delete_pet _ (Some key) =>
      if (key =? "")%string then default_headers
      else VDict [("api_key", VStr key)]
  | _ => default_headers
  end.
Proof.
  unfold trace.
  destruct (invoke_shape net c) as [_ E | r0 post F E _]; rewrite E.
  - intros [].
  - rewrite requests_exchanged. intros [<- | []]. clear E.
    destruct c; revert F; call_site; try discriminate;
      rewrite first_request_fetch; intros [= <-];
      try reflexivity.
    destruct api_key as [key |]; [| reflexivity].
    cbn [of_opt_str truthy fetch_request req_headers].
    destruct (key =? "")%string; reflexivity.
Qed.

Lemma headers_of_every_request_witness :
  req_headers
    (fetch_request "DELETE" "/pet/1" VNone VNone
       (VDict [("api_key", VStr "special-key")])) =
  VDict [("api_key", VStr "special-key")].
Proof.
  apply (@headers_of_every_request refusing (Delete_pet 1 (Some "special-key"))).
  vm_compute. left. reflexivity.
Defined.

(** ** Lists, identifiers and bodies on their way out *)

Lemma append_assoc (a b c : string) : (a ++ b) ++ c = a ++ b ++ c.
Proof. induction a as [| x a IH]; cbn; congruence. Qed.

Lemma join_comma (a b : string) (rest : list string) :
  join "," ((a ++ "," ++ b) :: rest) = join "," (a :: b :: rest).
Proof.
  unfold join. destruct rest as [| c rest]; cbn [String.concat].
  - reflexivity.
  - rewrite !append_assoc. reflexivity.
Qed.

(** X9.  The list arguments are joined with commas and nothing is
    escaped: an element that contains a comma sends exactly the request
    of the two elements around the comma, for statuses and for tags. *)
Theorem comma_in_element_splits
  (net : network) (a b : string) (rest : list string) :
  requests (trace net (find_pets_by_status ((a ++ "," ++ b) :: rest))) =
  requests (trace net (find_pets_by_status (a :: b :: rest))) /\
  requests (trace net (find_pets_by_tags ((a ++ "," ++ b) :: rest))) =
  requests (trace net (find_pets_by_tags (a :: b :: rest))).
Proof.
  rewrite !find_pets_by_status_request, !find_pets_by_tags_request, join_comma.
  split; reflexivity.
Qed.

Lemma to_int_not_nil (z : Z) :
  Z.to_int z <> Decimal.Pos Decimal.Nil /\ Z.to_int z <> Decimal.Neg Decimal.Nil.
Proof.
  destruct z as [| p | p]; cbn; split; try discriminate;
    intros [= H]; exact (DecimalPos.Unsigned.to_uint_nonnil p H).
Qed.

(** Reading back the decimal text of an integer gives the integer. *)
Lemma str_of_int_read_back (z : Z) :
  option_map Z.of_int (NilZero.int_of_string (str_of_int z)) = Some z.
Proof.
  unfold str_of_int. destruct (to_int_not_nil z) as [P N].
  rewrite (NilZero.isi (Z.to_int z) P N). cbn. rewrite DecimalZ.of_to. reflexivity.
Qed.

Lemma str_of_int_inj (a b : Z) : str_of_int a = str_of_int b -> a = b.
Proof.
  intros H. pose proof (str_of_int_read_back a) as A.
  rewrite H, str_of_int_read_back in A. congruence.
Qed.

(** X10.  Positive, zero or negative, an identifier is written into the
    path in decimal, and different identifiers address different
    resources: two invocations of a tool send the same request exactly
    when they are given the same identifier. *)
Theorem same_request_same_id (net : network) (a b : Z) :
  (requests (trace net (get_pet_by_id a)) = requests (trace net (get_pet_by_id b))
   <-> a = b) /\
  (requests (trace net (get_order_by_id a)) =
   requests (trace net (get_order_by_id b)) <-> a = b) /\
  (requests (trace net (delete_order a)) = requests (trace net (delete_order b))
   <-> a = b).
Proof.
  unfold trace. call_site.
  rewrite !run_fetch_return, !run_fetch_discard, !requests_exchanged.
  unfold fetch_request.
  repeat split; try (intros ->; reflexivity);
    intros [= H]; apply str_of_int_inj, H.
Qed.

Ltac sent_once :=
  unfold trace; call_site;
  rewrite ?run_fetch_return, ?run_fetch_discard, requests_exchanged;
  reflexivity.

(** X11.  A body is a pass-through payload: whatever object the caller
    gives (a mapping, a list, [None], a number), the tool sends it
    unchanged as the JSON body of its one request, with no query
    parameters and the default headers; the two bulk creations differ in
    their path only. *)
Theorem bodies_sent_unchanged
  (net : network) (body : value) (users : list value) (username : string) :
  requests (trace net (add_pet body)) =
    [Request_ "POST" (PETSTORE_API_BASE ++ "/pet")
       VNone body default_headers 30] /\
  requests (trace net (update_pet body)) =
    [Request_ "PUT" (PETSTORE_API_BASE ++ "/pet")
       VNone body default_headers 30] /\
  requests (trace net (place_order body)) =
    [Request_ "POST" (PETSTORE_API_BASE ++ "/store/order")
       VNone body default_headers 30] /\
  requests (trace net (create_user body)) =
    [Request_ "POST" (PETSTORE_API_BASE ++ "/user")
       VNone body default_headers 30] /\
  requests (trace net (update_user username body)) =
    [Request_ "PUT" (PETSTORE_API_BASE ++ "/user/" ++ username)
       VNone body default_headers 30] /\
  requests (trace net (create_users_with_array_input users)) =
    [Request_ "POST" (PETSTORE_API_BASE ++ "/user/createWithArray")
       VNone (VList users) default_headers 30] /\
  requests (trace net (create_users_with_list_input users)) =
    [Request_ "POST" (PETSTORE_API_BASE ++ "/user/createWithList")
       VNone (VList users) default_headers 30].
Proof. repeat split; sent_once. Qed.

(** X13.  Whatever the user name and the password, also empty ones,
    [login_user] sends both as query parameters of its one GET to
    [/user/login], in this order and as they are; the request has no
    body, and the credentials are in no header. *)
Theorem login_user_sends_credentials_as_query
  (net : network) (username password : string) :
  requests (trace net (login_user username password)) =
  [Request_ "GET" (PETSTORE_API_BASE ++ "/user/login")
     (VDict [("username", VStr username); ("password", VStr password)])
     VNone
     (VDict [("User-Agent", VStr USER_AGENT);
             ("Content-Type", VStr "application/json")]) 30].
Proof. sent_once. Qed.
